(** * Verification of the struct-field validator (package [validator])

    A shallow embedding of [validator.go] and [validate_utils.go]:
    struct tags are parsed into field validators, the fields of a struct are
    walked in declaration order, nested structs are validated recursively and
    every violation is collected in a [ValidationErrors] aggregate.

    The Go library functions the package calls ([strings.Split],
    [strings.Join], [strconv.Atoi], the verbs of [fmt] and the part of
    [reflect] that is used) are modelled first, each in a module named after
    its Go package. *)

From Stdlib Require Import ZArith String Ascii List Bool Lia DecimalString.
From Stdlib Require Import DecimalPos.
Import ListNotations.

Local Open Scope string_scope.
Local Open Scope Z_scope.
Local Set Warnings "-register-all".

(** Go strings are byte sequences; [string] is a list of 8-bit characters.
    The builtin [len] is the number of bytes. *)
Definition len (s : string) : Z := Z.of_nat (String.length s).

(** [len] of a slice. *)
Definition slice_len {A : Type} (l : list A) : Z := Z.of_nat (List.length l).

(* ================================================================== *)
(** ** Package [strings] *)

Module strings.

(** [strings.Split(s, sep)] for a one-byte separator, which is what both
    call sites pass: the pieces of [s] between consecutive separators.
    The result always has at least one element (the text after the last
    separator, possibly empty). *)
Fixpoint Split (s : string) (sep : ascii) : list string :=
  match s with
  | EmptyString => [EmptyString]
  | String c rest =>
      if Ascii.eqb c sep then EmptyString :: Split rest sep
      else match Split rest sep with
           | piece :: pieces => String c piece :: pieces
           | [] => [String c EmptyString]
           end
  end.

(** [strings.Join(elems, sep)]. *)
Fixpoint Join (elems : list string) (sep : string) : string :=
  match elems with
  | [] => EmptyString
  | [e] => e
  | e :: rest => e ++ sep ++ Join rest sep
  end.

End strings.

(* ================================================================== *)
(** ** Package [strconv] *)

Module strconv.

(** Go's [int] on a 64-bit platform. *)
Definition minInt : Z := - 2 ^ 63.
Definition maxInt : Z := 2 ^ 63 - 1.

Definition digit (c : ascii) : option Z :=
  let n := Z.of_nat (nat_of_ascii c) in
  if (48 <=? n) && (n <=? 57) then Some (n - 48) else None.

(** The value of a run of decimal digits, most significant first. *)
Fixpoint digits (s : string) (acc : Z) : option Z :=
  match s with
  | EmptyString => Some acc
  | String c rest =>
      match digit c with
      | Some d => digits rest (10 * acc + d)
      | None => None
      end
  end.

(** [strconv.Atoi]: an optional sign, then at least one decimal digit and
    nothing else; the value has to fit an [int].  [None] stands for a
    non-nil [error] (the callers only test it against nil). *)
Definition Atoi (s : string) : option Z :=
  let '(neg, body) :=
    match s with
    | String "-" rest => (true, rest)
    | String "+" rest => (false, rest)
    | _ => (false, s)
    end in
  match body with
  | EmptyString => None
  | _ =>
      match digits body 0 with
      | None => None
      | Some n =>
          let v := if neg : bool then - n else n in
          if (minInt <=? v) && (v <=? maxInt) then Some v else None
      end
  end.

End strconv.

(* ================================================================== *)
(** ** Package [unicode/utf8]: the character length of a string *)

Module utf8.

Definition byte (c : ascii) : Z := Z.of_nat (nat_of_ascii c).

(** The length of the encoding a leading byte announces, with the range
    the second byte has to lie in; [None] for a byte that cannot start an
    encoding. *)
Definition first (c : Z) : option (nat * Z * Z) :=
  if c <? 194 then None                           (* 0x80 .. 0xC1 *)
  else if c <=? 223 then Some (2%nat, 128, 191)   (* 0xC2 .. 0xDF *)
  else if c =? 224 then Some (3%nat, 160, 191)    (* 0xE0 *)
  else if c =? 237 then Some (3%nat, 128, 159)    (* 0xED *)
  else if c <=? 239 then Some (3%nat, 128, 191)   (* 0xE1 .. 0xEF *)
  else if c =? 240 then Some (4%nat, 144, 191)    (* 0xF0 *)
  else if c <=? 243 then Some (4%nat, 128, 191)   (* 0xF1 .. 0xF3 *)
  else if c =? 244 then Some (4%nat, 128, 143)    (* 0xF4 *)
  else None.

Definition continuation (c : Z) : bool := (128 <=? c) && (c <=? 191).

(** The number of bytes of the character that starts with [c] and goes on
    with [rest]; an invalid or truncated encoding counts as one byte. *)
Definition width (c : ascii) (rest : string) : nat :=
  if byte c <? 128 then 1%nat
  else
    match first (byte c) with
    | None => 1%nat
    | Some (size, lo, hi) =>
        match size, rest with
        | 2%nat, String c1 _ =>
            if (lo <=? byte c1) && (byte c1 <=? hi) then 2%nat else 1%nat
        | 3%nat, String c1 (String c2 _) =>
            if (lo <=? byte c1) && (byte c1 <=? hi) && continuation (byte c2)
            then 3%nat else 1%nat
        | 4%nat, String c1 (String c2 (String c3 _)) =>
            if (lo <=? byte c1) && (byte c1 <=? hi) && continuation (byte c2)
               && continuation (byte c3)
            then 4%nat else 1%nat
        | _, _ => 1%nat
        end
    end.

(** Counting the characters of [s], of which the first [skip] bytes belong
    to a character that is already counted. *)
Fixpoint count (skip : nat) (s : string) : nat :=
  match s with
  | EmptyString => 0%nat
  | String c rest =>
      match skip with
      | S k => count k rest
      | O => S (count (Nat.pred (width c rest)) rest)
      end
  end.

(** [utf8.RuneCountInString]: the number of characters (code points) of a
    UTF-8 encoded string.  This is the character length the specification
    speaks of; the validators themselves never call it. *)
Definition RuneCountInString (s : string) : Z := Z.of_nat (count 0 s).

End utf8.

(* ================================================================== *)
(** ** Package [fmt]: the verbs used in the messages *)

Module fmt.

(** [%d] of an [int]. *)
Definition d (n : Z) : string := NilZero.string_of_int (Z.to_int n).

(** [%v] of a [[]int]: the elements separated by a space, in brackets. *)
Definition v_ints (l : list Z) : string :=
  "[" ++ strings.Join (map d l) " " ++ "]".

(** [%v] of a [[]string]. *)
Definition v_strings (l : list string) : string :=
  "[" ++ strings.Join l " " ++ "]".

End fmt.

(* ================================================================== *)
(** ** Package [reflect] *)

Module reflect.

(** [reflect.Kind].  The package under verification distinguishes [Int],
    [String] and [Struct]; every other kind is an [OtherKind]. *)
Inductive OtherKind : Set :=
| Bool | Int8 | Int16 | Int32 | Int64
| Uint | Uint8 | Uint16 | Uint32 | Uint64 | Uintptr
| Float32 | Float64 | Complex64 | Complex128
| Array | Chan | Func | Interface | Map | Pointer | Slice | UnsafePointer.

Inductive Kind : Set :=
| Int
| String
| Struct
| Other (k : OtherKind).

(** [Kind.String]: the name of a kind. *)
Definition Kind_String (k : Kind) : string :=
  match k with
  | Int => "int"
  | String => "string"
  | Struct => "struct"
  | Other Bool => "bool"
  | Other Int8 => "int8"
  | Other Int16 => "int16"
  | Other Int32 => "int32"
  | Other Int64 => "int64"
  | Other Uint => "uint"
  | Other Uint8 => "uint8"
  | Other Uint16 => "uint16"
  | Other Uint32 => "uint32"
  | Other Uint64 => "uint64"
  | Other Uintptr => "uintptr"
  | Other Float32 => "float32"
  | Other Float64 => "float64"
  | Other Complex64 => "complex64"
  | Other Complex128 => "complex128"
  | Other Array => "array"
  | Other Chan => "chan"
  | Other Func => "func"
  | Other Interface => "interface"
  | Other Map => "map"
  | Other Pointer => "ptr"
  | Other Slice => "slice"
  | Other UnsafePointer => "unsafe.Pointer"
  end.

(** [reflect.StructTag] in its conventional form, as the list of its
    [key:"value"] pairs in the order they are written. *)
Definition StructTag : Set := list (string * string).

(** [StructTag.Lookup]: the value of the first pair with that key. *)
Fixpoint Lookup (tag : StructTag) (key : string) : option string :=
  match tag with
  | [] => None
  | (k, v) :: rest => if String.eqb k key then Some v else Lookup rest key
  end.

(** [StructTag.Get]: the empty string when the key is absent. *)
Definition Get (tag : StructTag) (key : string) : string :=
  match Lookup tag key with
  | Some v => v
  | None => EmptyString
  end.

(** [reflect.StructField], over what a field holds: its declared type in a
    type descriptor, its value in a struct value. *)
Record Field (A : Type) : Type := mkField {
  Name : string;
  PkgPath : string;
  Tag : StructTag;
  Content : A
}.
Arguments mkField {A} _ _ _ _.
Arguments Name {A} _.
Arguments PkgPath {A} _.
Arguments Tag {A} _.
Arguments Content {A} _.

(** [StructField.IsExported]: the package path is empty. *)
Definition IsExported {A : Type} (f : Field A) : bool :=
  String.eqb (PkgPath f) EmptyString.

(** [reflect.Type], as far as the validator observes it: the kind and, for
    a struct, the declared fields. *)
Inductive type : Type :=
| TInt
| TString
| TStruct (fields : list (Field type))
| TOther (k : OtherKind).

Definition StructField : Type := Field type.

(** [f.Type] of a [StructField]. *)
Definition Typ (f : StructField) : type := Content f.

Definition Kind_of (t : type) : Kind :=
  match t with
  | TInt => Int
  | TString => String
  | TStruct _ => Struct
  | TOther k => Other k
  end.

(** A Go value together with its dynamic type.  A struct value lists its
    fields in declaration order, each with the field's static description
    and its value.  [VOther k i] is a value of any other kind; [i] is its
    numeric content when [k] is an integer kind and is otherwise unused. *)
Inductive value : Type :=
| VInt (i : Z)
| VString (s : string)
| VStruct (fields : list (Field value))
| VOther (k : OtherKind) (i : Z).

(** The dynamic type of a value. *)
Fixpoint type_of (v : value) : type :=
  match v with
  | VInt _ => TInt
  | VString _ => TString
  | VStruct fields =>
      TStruct (map (fun f => mkField (Name f) (PkgPath f) (Tag f)
                                     (type_of (Content f))) fields)
  | VOther k _ => TOther k
  end.

(** [t.Field(i)] for the [i]-th field [f] of a struct value. *)
Definition descriptor (f : Field value) : StructField :=
  mkField (Name f) (PkgPath f) (Tag f) (type_of (Content f)).

(** An [any]: [None] is the nil interface value. *)
Definition any : Type := option value.

(** [reflect.TypeOf]: nil for the nil interface value. *)
Definition TypeOf (v : any) : option type := option_map type_of v.

End reflect.

(* ================================================================== *)
(** ** Panics and the result of a call *)

(** What a call can panic with. *)
Inductive panic : Type :=
| NilDereference                  (* a method called on a nil [reflect.Type] *)
| UnsupportedType (msg : string)  (* [log.Panicf] in [parseValidators] *)
| InterfaceConversion             (* a failed type assertion *)
| ValueKind (method : string).    (* a [reflect.Value] getter on a wrong kind *)

(** A call either returns or panics. *)
Inductive result (A : Type) : Type :=
| Ret (a : A)
| Panic (p : panic).
Arguments Ret {A} a.
Arguments Panic {A} p.

Definition bind {A B : Type} (m : result A) (k : A -> result B) : result B :=
  match m with
  | Ret a => k a
  | Panic p => Panic p
  end.

Notation "x <- m ;; k" := (bind m (fun x => k))
  (at level 61, m at next level, right associativity).

(* ================================================================== *)
(** ** The error model ([validator.go]) *)

(** [ValidationError], over the type of its cause. *)
Record ValidationError_ (E : Type) : Type := mkValidationError {
  Field : string;
  Err : E
}.
Arguments mkValidationError {E} _ _.
Arguments Field {E} _.
Arguments Err {E} _.

(** A non-nil [error] as it occurs in this package: one of the three
    package-level errors, a message built by [fmt.Errorf], or a
    [ValidationError] or [ValidationErrors] value held in the interface. *)
Inductive error : Type :=
| ErrNotStruct
| ErrInvalidValidatorSyntax
| ErrValidateForUnexportedFields
| Errorf (msg : string)
| of_ValidationError (e : ValidationError_ error)
| of_ValidationErrors (es : list (ValidationError_ error)).

Definition ValidationError : Type := ValidationError_ error.
Definition ValidationErrors : Type := list ValidationError.

(** A line feed. *)
Definition LF : string := String (ascii_of_nat 10) EmptyString.

(** The [Error] methods.  [ValidationErrors.Error] returns the cause's own
    message when there is exactly one error and joins the per-error strings
    with line feeds otherwise. *)
Fixpoint Error (e : error) : string :=
  match e with
  | ErrNotStruct => "wrong argument given, should be a struct"
  | ErrInvalidValidatorSyntax => "invalid validator syntax"
  | ErrValidateForUnexportedFields =>
      "validation for unexported field is not allowed"
  | Errorf msg => msg
  | of_ValidationError v => Field v ++ ": " ++ Error (Err v)
  | of_ValidationErrors v =>
      match v with
      | [v0] => Error (Err v0)
      | _ =>
          strings.Join
            ((fix range (v : list (ValidationError_ error)) : list string :=
                match v with
                | [] => []
                | err :: rest => (Field err ++ ": " ++ Error (Err err)) :: range rest
                end) v)
            LF
      end
  end.

(** [ValidationError.Error]. *)
Definition ValidationError_Error (v : ValidationError) : string :=
  Error (of_ValidationError v).

(** [ValidationErrors.Error]. *)
Definition ValidationErrors_Error (v : ValidationErrors) : string :=
  Error (of_ValidationErrors v).

(* ================================================================== *)
(** ** Field validators ([validate_utils.go]) *)

(** [contains], over the equality test of the element type. *)
Fixpoint contains {T : Type} (eqb : T -> T -> bool) (s : list T) (needle : T)
  : bool :=
  match s with
  | [] => false
  | v :: rest => if eqb v needle then true else contains eqb rest needle
  end.

(** [parseIntSlice]: [None] for a non-nil error. *)
Definition parseIntSlice (s : string) : option (list Z) :=
  let strVals := strings.Split s "," in
  (fix range (strVals : list string) (intVals : list Z) : option (list Z) :=
     match strVals with
     | [] => Some intVals
     | v :: rest =>
         match strconv.Atoi v with
         | None => None
         | Some val => range rest (intVals ++ [val])%list
         end
     end) strVals [].

(** The implementations of the [fieldValidator] interface. *)
Inductive fieldValidator : Type :=
| intMinValidator (min : Z)
| intMaxValidator (max : Z)
| intInValidator (in_ : list Z)
| strLenValidator (l : Z)
| strMinValidator (min : Z)
| strMaxValidator (max : Z)
| strInValidator (in_ : list string).

(** A [fieldValidatorCreator]; [None] for a non-nil error. *)
Definition fieldValidatorCreator : Type := string -> option fieldValidator.

Definition newIntMinValidator : fieldValidatorCreator :=
  fun s => match strconv.Atoi s with
           | None => None
           | Some val => Some (intMinValidator val)
           end.

Definition newIntMaxValidator : fieldValidatorCreator :=
  fun s => match strconv.Atoi s with
           | None => None
           | Some val => Some (intMaxValidator val)
           end.

Definition newIntInValidator : fieldValidatorCreator :=
  fun s => match parseIntSlice s with
           | None => None
           | Some vals => Some (intInValidator vals)
           end.

Definition newStrLenValidator : fieldValidatorCreator :=
  fun s => match strconv.Atoi s with
           | None => None
           | Some val => Some (strLenValidator val)
           end.

Definition newStrMinValidator : fieldValidatorCreator :=
  fun s => match strconv.Atoi s with
           | None => None
           | Some val => Some (strMinValidator val)
           end.

Definition newStrMaxValidator : fieldValidatorCreator :=
  fun s => match strconv.Atoi s with
           | None => None
           | Some val => Some (strMaxValidator val)
           end.

Definition newStrInValidator : fieldValidatorCreator :=
  fun s => Some (strInValidator (strings.Split s ",")).

(** The two tables of creators, keyed by the validator's name. *)
Definition intValidators : list (string * fieldValidatorCreator) :=
  [ ("min", newIntMinValidator);
    ("max", newIntMaxValidator);
    ("in", newIntInValidator) ].

Definition strValidators : list (string * fieldValidatorCreator) :=
  [ ("len", newStrLenValidator);
    ("min", newStrMinValidator);
    ("max", newStrMaxValidator);
    ("in", newStrInValidator) ].

(** Indexing a Go map: the creator and the [ok] flag as an option. *)
Fixpoint map_index {V : Type} (m : list (string * V)) (k : string) : option V :=
  match m with
  | [] => None
  | (k', v) :: rest => if String.eqb k' k then Some v else map_index rest k
  end.

(** [reflect.Value.Int]: panics unless the kind is a signed integer kind. *)
Definition Value_Int (v : reflect.value) : result Z :=
  match v with
  | reflect.VInt i => Ret i
  | reflect.VOther (reflect.Int8 | reflect.Int16 | reflect.Int32
                    | reflect.Int64) i => Ret i
  | _ => Panic (ValueKind "Int")
  end.

(* ================================================================== *)
(** ** Sample data for the examples *)

(** A printer of types that prints the kind of the type, which is what
    [Type.String] prints for the predeclared types [int], [string], ... *)
Definition kind_printer (t : reflect.type) : string :=
  reflect.Kind_String (reflect.Kind_of t).

(** The tag [validate:"text"]. *)
Definition validate_tag (text : string) : reflect.StructTag :=
  [("validate", text)].

(** An exported field with a [validate] tag. *)
Definition tagged (name text : string) (v : reflect.value)
  : reflect.Field reflect.value :=
  reflect.mkField name EmptyString (validate_tag text) v.

(** An exported field without tag. *)
Definition untagged (name : string) (v : reflect.value)
  : reflect.Field reflect.value :=
  reflect.mkField name EmptyString [] v.

(** The string of one character U+00E9 (e with acute accent), two bytes in
    UTF-8: 0xC3 0xA9. *)
Definition e_acute : string :=
  String (ascii_of_nat 195) (String (ascii_of_nat 169) EmptyString).

Section Validator.

(** [reflect.Type.String]: the printed form of a type.  The model of types
    keeps kinds and struct shapes but no type names, so the printer of
    package [reflect] is a parameter of the development. *)
Variable type_String : reflect.type -> string.

(** [reflect.Value.String]: the string itself for a string value; for any
    other kind it does not panic but returns a placeholder naming the
    type. *)
Definition Value_String (v : reflect.value) : string :=
  match v with
  | reflect.VString s => s
  | _ => "<" ++ type_String (reflect.type_of v) ++ " Value>"
  end.

(** The [validate] methods. *)
Definition validate (v : fieldValidator) (x : reflect.value)
  : result (option error) :=
  match v with
  | intMinValidator min =>
      val <- Value_Int x ;;
      if val <? min
      then Ret (Some (Errorf (fmt.d val ++ " is less than min allowed "
                              ++ fmt.d min)))
      else Ret None
  | intMaxValidator max =>
      val <- Value_Int x ;;
      if val >? max
      then Ret (Some (Errorf (fmt.d val ++ " is higher than max allowed "
                              ++ fmt.d max)))
      else Ret None
  | intInValidator in_ =>
      val <- Value_Int x ;;
      if negb (contains Z.eqb in_ val)
      then Ret (Some (Errorf (fmt.d val ++ " is not in " ++ fmt.v_ints in_)))
      else Ret None
  | strLenValidator l =>
      let val := Value_String x in
      if negb (len val =? l)
      then Ret (Some (Errorf ("len of " ++ val ++ " is not equal to "
                              ++ fmt.d l)))
      else Ret None
  | strMinValidator min =>
      let val := Value_String x in
      if len val <? min
      then Ret (Some (Errorf ("len of " ++ val ++ " is less than min allowed "
                              ++ fmt.d min)))
      else Ret None
  | strMaxValidator max =>
      let val := Value_String x in
      if len val >? max
      then Ret (Some (Errorf ("len of " ++ val
                              ++ " is higher than max allowed " ++ fmt.d max)))
      else Ret None
  | strInValidator in_ =>
      let val := Value_String x in
      if negb (contains String.eqb in_ val)
      then Ret (Some (Errorf (val ++ " is not in " ++ fmt.v_strings in_)))
      else Ret None
  end.

(* ================================================================ *)
(** ** Parsing a tag ([validator.go]) *)

(** The loop of [parseValidators] over the clauses [kvs], with the
    validators built so far. *)
Fixpoint parse_clauses (fieldValidators : list (string * fieldValidatorCreator))
    (kvs : list string) (validators : list fieldValidator)
  : list fieldValidator + error :=
  match kvs with
  | [] => inl validators
  | kv :: rest =>
      let vals := strings.Split kv ":" in
      if negb (slice_len vals =? 2)
         || (len (nth 0 vals EmptyString) =? 0)
         || (len (nth 1 vals EmptyString) =? 0)
      then inr ErrInvalidValidatorSyntax
      else
        let k := nth 0 vals EmptyString in
        let v := nth 1 vals EmptyString in
        match map_index fieldValidators k with
        | None => inr ErrInvalidValidatorSyntax
        | Some createValidator =>
            match createValidator v with
            | None => inr ErrInvalidValidatorSyntax
            | Some validator =>
                parse_clauses fieldValidators rest
                  (validators ++ [validator])%list
            end
        end
  end.

Definition parseValidators (t : reflect.type) (tag : string)
  : result (list fieldValidator + error) :=
  fieldValidators <-
    match reflect.Kind_of t with
    | reflect.Int => Ret intValidators
    | reflect.String => Ret strValidators
    | _ => Panic (UnsupportedType ("unsupported type: " ++ type_String t))
    end ;;
  let kvs := strings.Split tag ";" in
  Ret (parse_clauses fieldValidators kvs []).

(* ================================================================ *)
(** ** Walking a struct ([validator.go]) *)

(** [needValidation] recurses on the type of the field; [tag] and [t] are
    the tag and the type of the field. *)
Fixpoint needValidation_of (tag : reflect.StructTag) (t : reflect.type)
  : bool :=
  match t with
  | reflect.TInt | reflect.TString =>
      match reflect.Lookup tag "validate" with
      | Some _ => true
      | None => false
      end
  | reflect.TStruct fields =>
      (fix loop (fields : list reflect.StructField) : bool :=
         match fields with
         | [] => false
         | fi :: rest =>
             if needValidation_of (reflect.Tag fi) (reflect.Content fi)
             then true else loop rest
         end) fields
  | reflect.TOther _ => false
  end.

Definition needValidation (f : reflect.StructField) : bool :=
  needValidation_of (reflect.Tag f) (reflect.Typ f).

(** The innermost loop of [Validate]: every validator of the field is run
    and each error is appended under the field's name. *)
Fixpoint run_validators (name : string) (fv : reflect.value)
    (validators : list fieldValidator) (errs : ValidationErrors)
  : result ValidationErrors :=
  match validators with
  | [] => Ret errs
  | validator :: rest =>
      err <- validate validator fv ;;
      match err with
      | Some err =>
          run_validators name fv rest
            (errs ++ [mkValidationError name err])%list
      | None => run_validators name fv rest errs
      end
  end.

(** One iteration of the loop over the fields, for the field [fld] of the
    struct value; [Validate] is the recursive call. *)
Definition Validate_field (Validate : reflect.value -> result (option error))
    (fld : reflect.Field reflect.value) (errs : ValidationErrors)
  : result ValidationErrors :=
  let f := reflect.descriptor fld in
  if negb (needValidation f) then Ret errs
  else if negb (reflect.IsExported f) then
    Ret (errs ++ [mkValidationError (reflect.Name f)
                                    ErrValidateForUnexportedFields])%list
  else
    match reflect.Kind_of (reflect.Typ f) with
    | reflect.Struct =>
        nestedErrs <- Validate (reflect.Content fld) ;;
        match nestedErrs with
        | None => Ret errs
        | Some (of_ValidationErrors nested) =>
            Ret (fold_left
                   (fun errs err =>
                      (errs ++ [mkValidationError (reflect.Name f)
                                                  (of_ValidationError err)])%list)
                   nested errs)
        | Some _ => Panic InterfaceConversion
        end
    | _ =>
        parsed <- parseValidators (reflect.Typ f)
                                  (reflect.Get (reflect.Tag f) "validate") ;;
        match parsed with
        | inr err =>
            Ret (errs ++ [mkValidationError (reflect.Name f) err])%list
        | inl validators =>
            run_validators (reflect.Name f) (reflect.Content fld)
                           validators errs
        end
    end.

(** The loop of [Validate] over the fields of the struct, in declaration
    order, with the errors collected so far. *)
Fixpoint Validate_loop (Validate : reflect.value -> result (option error))
    (fields : list (reflect.Field reflect.value)) (errs : ValidationErrors)
  : result ValidationErrors :=
  match fields with
  | [] => Ret errs
  | fld :: rest =>
      errs' <- Validate_field Validate fld errs ;;
      Validate_loop Validate rest errs'
  end.

(** [Validate] on a non-nil argument [v].  The kind of its type is [Struct]
    exactly when [v] is a [VStruct]: anything else is rejected with
    [ErrNotStruct]; for a struct the errors of the fields are returned, or
    nil when there are none.  The recursive call is passed to
    [Validate_loop], which applies it to the value of a field. *)
Fixpoint Validate_value (v : reflect.value) : result (option error) :=
  match v with
  | reflect.VStruct fields =>
      errs <- Validate_loop Validate_value fields [] ;;
      if slice_len errs =? 0 then Ret None
      else Ret (Some (of_ValidationErrors errs))
  | reflect.VInt _ | reflect.VString _ | reflect.VOther _ _ =>
      Ret (Some ErrNotStruct)
  end.

(** [Validate]: [reflect.TypeOf] of the nil interface value is nil, and
    calling [Kind] on it is a nil dereference. *)
Definition Validate (v : reflect.any) : result (option error) :=
  match reflect.TypeOf v, v with
  | Some _, Some vv => Validate_value vv
  | _, _ => Panic NilDereference
  end.

(* ================================================================== *)
(** ** Notions used in the statements *)

(** The errors a call returned in a [ValidationErrors] aggregate. *)
Definition aggregate (r : result (option error)) : ValidationErrors :=
  match r with
  | Ret (Some (of_ValidationErrors errs)) => errs
  | _ => []
  end.

(** What [Validate] returns for the collected errors: nil when there are
    none, the aggregate otherwise. *)
Definition as_error (errs : ValidationErrors) : option error :=
  match errs with
  | [] => None
  | _ => Some (of_ValidationErrors errs)
  end.

(** [validator] reports a violation for the value [x]. *)
Definition violated (validator : fieldValidator) (x : reflect.value) : bool :=
  match validate validator x with
  | Ret (Some _) => true
  | _ => false
  end.

(** The errors of the violated validators among [validators], one each, in
    the order of the validators. *)
Definition violations (validators : list fieldValidator) (x : reflect.value)
  : list error :=
  flat_map (fun validator =>
              match validate validator x with
              | Ret (Some err) => [err]
              | _ => []
              end) validators.

(** The errors the field [fld] adds to the aggregate. *)
Definition field_errors (fld : reflect.Field reflect.value)
  : ValidationErrors :=
  match Validate_field Validate_value fld [] with
  | Ret errs => errs
  | Panic _ => []
  end.

(** A clause of a tag is well formed for a table of creators: exactly one
    colon, a key and a value that are not empty, a key of the table and a
    value its creator accepts. *)
Definition clause_ok (fieldValidators : list (string * fieldValidatorCreator))
    (kv : string) : bool :=
  match strings.Split kv ":" with
  | [k; v] =>
      negb (String.eqb k EmptyString) && negb (String.eqb v EmptyString)
      && match map_index fieldValidators k with
         | Some createValidator =>
             match createValidator v with
             | Some _ => true
             | None => false
             end
         | None => false
         end
  | _ => false
  end.

(** The table of creators [parseValidators] uses for a type of kind [Int]
    or [String]. *)
Definition creators (t : reflect.type) : list (string * fieldValidatorCreator) :=
  match reflect.Kind_of t with
  | reflect.Int => intValidators
  | _ => strValidators
  end.

(** The validators of the table for kind [Int] and of the table for kind
    [String]. *)
Definition int_validator (v : fieldValidator) : bool :=
  match v with
  | intMinValidator _ | intMaxValidator _ | intInValidator _ => true
  | _ => false
  end.

Definition str_validator (v : fieldValidator) : bool :=
  negb (int_validator v).

(** An error of a nested struct under the name of the field that holds
    the struct. *)
Definition wrap (name : string) (err : ValidationError) : ValidationError :=
  mkValidationError name (of_ValidationError err).

(** The recursive call on the value of a field returns, and returns nil or
    an aggregate. *)
Definition returns_aggregate (v : reflect.value) : Prop :=
  forall fields, v = reflect.VStruct fields ->
  exists errs, Validate_value v = Ret (as_error errs).

(** The evaluation rule of the text constraints [min], [max] and [len] over
    a measure [length] of the text: the constraint reports a violation for
    the text [s] exactly when the measure is below the bound, above the
    bound, or different from the required length.  A validator for
    integers is never a text constraint. *)
Definition text_rule (length : string -> Z) (validator : fieldValidator)
    (s : string) : Prop :=
  match validator with
  | strMinValidator min =>
      violated validator (reflect.VString s) = true <-> length s < min
  | strMaxValidator max =>
      violated validator (reflect.VString s) = true <-> length s > max
  | strLenValidator l =>
      violated validator (reflect.VString s) = true <-> length s <> l
  | strInValidator _ => True
  | _ => False
  end.

(** The errors of one field as the specification lists them, [nested]
    giving the errors of a nested struct: nothing for a field that needs no
    validation; the unexported-field error for a field that is not
    exported; the wrapped errors of a nested struct; for a leaf the
    malformed-annotation error, or the errors of the violated constraints
    in the order of the constraints. *)
Definition field_contribution (nested : reflect.value -> ValidationErrors)
    (fld : reflect.Field reflect.value) : ValidationErrors :=
  if negb (needValidation (reflect.descriptor fld)) then []
  else if negb (reflect.IsExported fld) then
    [mkValidationError (reflect.Name fld) ErrValidateForUnexportedFields]
  else
    match reflect.Content fld with
    | reflect.VStruct _ =>
        map (wrap (reflect.Name fld)) (nested (reflect.Content fld))
    | reflect.VOther _ _ => []
    | _ =>
        match parse_clauses (creators (reflect.type_of (reflect.Content fld)))
                (strings.Split (reflect.Get (reflect.Tag fld) "validate") ";")
                [] with
        | inl validators =>
            map (mkValidationError (reflect.Name fld))
                (violations validators (reflect.Content fld))
        | inr _ =>
            [mkValidationError (reflect.Name fld) ErrInvalidValidatorSyntax]
        end
    end.

(** The errors of a struct value: those of its fields, field after field in
    the order of declaration. *)
Fixpoint expected_errors (v : reflect.value) : ValidationErrors :=
  match v with
  | reflect.VStruct fields => flat_map (field_contribution expected_errors) fields
  | _ => []
  end.

(** The list of the values when every element is [Some], [None] as soon as
    one element is [None]. *)
Fixpoint all_some {A : Type} (l : list (option A)) : option (list A) :=
  match l with
  | [] => Some []
  | None :: _ => None
  | Some a :: rest =>
      match all_some rest with
      | Some values => Some (a :: values)
      | None => None
      end
  end.

(** The validator one clause of a tag stands for, if the clause is well
    formed: the creator registered under the key, applied to the value. *)
Definition clause_validator
    (fieldValidators : list (string * fieldValidatorCreator)) (kv : string)
  : option fieldValidator :=
  match strings.Split kv ":" with
  | [k; v] =>
      if String.eqb k EmptyString || String.eqb v EmptyString then None
      else match map_index fieldValidators k with
           | Some createValidator => createValidator v
           | None => None
           end
  | _ => None
  end.

(** The character [c] does not occur in [s]. *)
Fixpoint free_of (c : ascii) (s : string) : bool :=
  match s with
  | EmptyString => true
  | String c' rest => negb (Ascii.eqb c' c) && free_of c rest
  end.

(** The evaluation rule of the integer constraints on the value [i]:
    [min] reports a violation exactly below the bound, [max] exactly above
    it and [in] exactly when [i] is not listed.  A validator for text is
    never an integer constraint. *)
Definition int_rule (validator : fieldValidator) (i : Z) : Prop :=
  match validator with
  | intMinValidator min =>
      violated validator (reflect.VInt i) = true <-> i < min
  | intMaxValidator max =>
      violated validator (reflect.VInt i) = true <-> i > max
  | intInValidator in_ =>
      violated validator (reflect.VInt i) = true <-> ~ In i in_
  | _ => False
  end.

(** The parameters a parsed validator can hold: a bound that fits an
    [int], a list of members that is not empty and, for integers, fits. *)
Definition fits_int (n : Z) : Prop := strconv.minInt <= n <= strconv.maxInt.

Definition parameters_ok (validator : fieldValidator) : Prop :=
  match validator with
  | intMinValidator n | intMaxValidator n
  | strLenValidator n | strMinValidator n | strMaxValidator n => fits_int n
  | intInValidator in_ => in_ <> [] /\ Forall fits_int in_
  | strInValidator in_ => in_ <> []
  end.

(** A value [reflect.Value.Int] accepts: of kind [Int] or of a sized signed
    integer kind. *)
Definition signed_int (x : reflect.value) : bool :=
  match x with
  | reflect.VInt _ => true
  | reflect.VOther (reflect.Int8 | reflect.Int16 | reflect.Int32
                    | reflect.Int64) _ => true
  | _ => false
  end.

(** A field carries a [validate] annotation: it is of kind [Int] or
    [String] and its tag has the key, or it is a struct one of whose fields
    carries an annotation. *)
Inductive annotated : reflect.StructField -> Prop :=
| annotated_int name pkg tag text :
    reflect.Lookup tag "validate" = Some text ->
    annotated (reflect.mkField name pkg tag reflect.TInt)
| annotated_string name pkg tag text :
    reflect.Lookup tag "validate" = Some text ->
    annotated (reflect.mkField name pkg tag reflect.TString)
| annotated_struct name pkg tag fields f :
    In f fields -> annotated f ->
    annotated (reflect.mkField name pkg tag (reflect.TStruct fields)).

(** The causes an error of the aggregate can have: the unexported-field
    error, the malformed-annotation error, a violation message, or an
    error of a nested struct with such a cause. *)
Fixpoint field_cause (e : error) : bool :=
  match e with
  | ErrInvalidValidatorSyntax | ErrValidateForUnexportedFields | Errorf _ => true
  | of_ValidationError v => field_cause (Err v)
  | ErrNotStruct | of_ValidationErrors _ => false
  end.

(** Induction on a type with the hypothesis for every field of a struct. *)
Fixpoint type_ind' (P : reflect.type -> Prop)
    (HInt : P reflect.TInt)
    (HString : P reflect.TString)
    (HStruct : forall fields,
        Forall (fun f => P (reflect.Content f)) fields ->
        P (reflect.TStruct fields))
    (HOther : forall k, P (reflect.TOther k))
    (t : reflect.type) {struct t} : P t :=
  match t with
  | reflect.TInt => HInt
  | reflect.TString => HString
  | reflect.TStruct fields =>
      HStruct fields
        ((fix all (l : list reflect.StructField)
            : Forall (fun f => P (reflect.Content f)) l :=
            match l with
            | [] => Forall_nil _
            | f :: rest =>
                Forall_cons f
                  (type_ind' P HInt HString HStruct HOther (reflect.Content f))
                  (all rest)
            end) fields)
  | reflect.TOther k => HOther k
  end.

(* ================================================================== *)
(** ** Induction on values and basic facts *)

(** Induction on a value with the hypothesis for every field of a struct. *)
Fixpoint value_ind' (P : reflect.value -> Prop)
    (HInt : forall i, P (reflect.VInt i))
    (HString : forall s, P (reflect.VString s))
    (HStruct : forall fields,
        Forall (fun f => P (reflect.Content f)) fields ->
        P (reflect.VStruct fields))
    (HOther : forall k i, P (reflect.VOther k i))
    (v : reflect.value) {struct v} : P v :=
  match v with
  | reflect.VInt i => HInt i
  | reflect.VString s => HString s
  | reflect.VStruct fields =>
      HStruct fields
        ((fix all (l : list (reflect.Field reflect.value))
            : Forall (fun f => P (reflect.Content f)) l :=
            match l with
            | [] => Forall_nil _
            | f :: rest =>
                Forall_cons f
                  (value_ind' P HInt HString HStruct HOther (reflect.Content f))
                  (all rest)
            end) fields)
  | reflect.VOther k i => HOther k i
  end.

Lemma len_eq_0 (s : string) : (len s =? 0) = String.eqb s EmptyString.
Proof.
  destruct s as [|c s]; [reflexivity|].
  unfold len; cbn [String.length].
  destruct (Z.eqb_spec (Z.of_nat (S (String.length s))) 0) as [E|E]; [lia|].
  reflexivity.
Qed.

(** The test of [parseValidators] on a clause is [clause_ok]. *)
Lemma parse_clauses_cons (tbl : list (string * fieldValidatorCreator)) kv rest acc :
  parse_clauses tbl (kv :: rest) acc =
  if clause_ok tbl kv
  then match strings.Split kv ":" with
       | [k; v] =>
           match map_index tbl k with
           | Some create =>
               match create v with
               | Some validator => parse_clauses tbl rest (acc ++ [validator])
               | None => inr ErrInvalidValidatorSyntax
               end
           | None => inr ErrInvalidValidatorSyntax
           end
       | _ => inr ErrInvalidValidatorSyntax
       end
  else inr ErrInvalidValidatorSyntax.
Proof.
  unfold clause_ok; cbn [parse_clauses].
  destruct (strings.Split kv ":") as [|k [|v [|w l]]] eqn:E.
  - reflexivity.
  - reflexivity.
  - cbn [nth slice_len List.length]. rewrite !len_eq_0.
    change (Z.of_nat 2 =? 2) with true. cbn [negb orb].
    destruct (String.eqb k EmptyString); [reflexivity|].
    destruct (String.eqb v EmptyString); [reflexivity|].
    cbn [negb andb].
    destruct (map_index tbl k) as [create|]; [|reflexivity].
    destruct (create v); reflexivity.
  - unfold slice_len. cbn [List.length].
    destruct (Z.eqb_spec (Z.of_nat (S (S (S (List.length l))))) 2) as [E2|E2];
      [lia|reflexivity].
Qed.

Lemma parse_clauses_error (tbl : list (string * fieldValidatorCreator)) kvs :
  forall acc e,
  parse_clauses tbl kvs acc = inr e -> e = ErrInvalidValidatorSyntax.
Proof.
  induction kvs as [|kv rest IH]; intros acc e H.
  - discriminate.
  - rewrite parse_clauses_cons in H.
    destruct (clause_ok tbl kv); [|congruence].
    destruct (strings.Split kv ":") as [|k [|v [|w l]]]; try congruence.
    destruct (map_index tbl k) as [create|]; [|congruence].
    destruct (create v); [eauto|congruence].
Qed.

Lemma parse_clauses_bad (tbl : list (string * fieldValidatorCreator)) kvs :
  forall acc,
  existsb (fun kv => negb (clause_ok tbl kv)) kvs = true ->
  parse_clauses tbl kvs acc = inr ErrInvalidValidatorSyntax.
Proof.
  induction kvs as [|kv rest IH]; intros acc H; [discriminate|].
  rewrite parse_clauses_cons. cbn [existsb] in H.
  destruct (clause_ok tbl kv) eqn:Ok; [|reflexivity].
  cbn [negb orb] in H.
  destruct (strings.Split kv ":") as [|k [|v [|w l]]]; try reflexivity.
  destruct (map_index tbl k) as [create|]; [|reflexivity].
  destruct (create v); [auto|reflexivity].
Qed.

Lemma parse_clauses_good (tbl : list (string * fieldValidatorCreator)) kvs :
  forall acc,
  forallb (clause_ok tbl) kvs = true ->
  exists vs, parse_clauses tbl kvs acc = inl (acc ++ vs)%list
             /\ List.length vs = List.length kvs.
Proof.
  induction kvs as [|kv rest IH]; intros acc H.
  - exists []. cbn. rewrite app_nil_r. auto.
  - rewrite parse_clauses_cons. cbn [forallb] in H.
    apply andb_true_iff in H as [Ok H]. rewrite Ok.
    unfold clause_ok in Ok.
    destruct (strings.Split kv ":") as [|k [|v [|w l]]]; try discriminate.
    destruct (map_index tbl k) as [create|];
      [|rewrite andb_false_r in Ok; discriminate].
    destruct (create v) as [validator|];
      [|rewrite andb_false_r in Ok; discriminate].
    destruct (IH (acc ++ [validator])%list H) as [vs [E L]].
    exists (validator :: vs). rewrite E, <- app_assoc. cbn. auto.
Qed.

(** Every validator a successful parse returns was built by a creator of
    the table. *)
Lemma parse_clauses_Forall (P : fieldValidator -> Prop)
    (tbl : list (string * fieldValidatorCreator))
    (Htbl : forall k create v x,
        map_index tbl k = Some create -> create v = Some x -> P x)
    kvs : forall acc vs,
  Forall P acc -> parse_clauses tbl kvs acc = inl vs -> Forall P vs.
Proof.
  induction kvs as [|kv rest IH]; intros acc vs Hacc H.
  - cbn in H. congruence.
  - rewrite parse_clauses_cons in H.
    destruct (clause_ok tbl kv); [|discriminate].
    destruct (strings.Split kv ":") as [|k [|v [|w l]]]; try discriminate.
    destruct (map_index tbl k) as [create|] eqn:Ek; [|discriminate].
    destruct (create v) as [validator|] eqn:Ev; [|discriminate].
    refine (IH _ _ _ H). apply Forall_app. split; [assumption|].
    constructor; [|constructor]. exact (Htbl _ _ _ _ Ek Ev).
Qed.

(* ================================================================== *)
(** ** The validators of a field never panic *)

Ltac by_key k :=
  repeat match goal with
    | H : context [String.eqb ?c k] |- _ => destruct (String.eqb c k)
    end.

Lemma intValidators_int k create v x :
  map_index intValidators k = Some create -> create v = Some x ->
  int_validator x = true.
Proof.
  unfold intValidators; cbn [map_index]; intros Hk Hv. by_key k;
    try discriminate; injection Hk as <-;
    [ unfold newIntMinValidator in Hv
    | unfold newIntMaxValidator in Hv
    | unfold newIntInValidator in Hv ].
  - destruct (strconv.Atoi v); [injection Hv as <-; reflexivity|discriminate].
  - destruct (strconv.Atoi v); [injection Hv as <-; reflexivity|discriminate].
  - destruct (parseIntSlice v); [injection Hv as <-; reflexivity|discriminate].
Qed.

Lemma strValidators_str k create v x :
  map_index strValidators k = Some create -> create v = Some x ->
  str_validator x = true.
Proof.
  unfold strValidators; cbn [map_index]; intros Hk Hv. by_key k;
    try discriminate; injection Hk as <-;
    [ unfold newStrLenValidator in Hv
    | unfold newStrMinValidator in Hv
    | unfold newStrMaxValidator in Hv
    | unfold newStrInValidator in Hv ].
  - destruct (strconv.Atoi v); [injection Hv as <-; reflexivity|discriminate].
  - destruct (strconv.Atoi v); [injection Hv as <-; reflexivity|discriminate].
  - destruct (strconv.Atoi v); [injection Hv as <-; reflexivity|discriminate].
  - injection Hv as <-; reflexivity.
Qed.

Lemma validate_int_Ret v i :
  int_validator v = true -> exists r, validate v (reflect.VInt i) = Ret r.
Proof.
  destruct v; cbn; intros H; try discriminate.
  - destruct (i <? min); eauto.
  - destruct (i >? max); eauto.
  - destruct (contains Z.eqb in_ i); cbn; eauto.
Qed.

Lemma validate_str_Ret v x :
  str_validator v = true -> exists r, validate v x = Ret r.
Proof.
  destruct v; cbn; intros H; try discriminate.
  - destruct (len (Value_String x) =? l); cbn; eauto.
  - destruct (len (Value_String x) <? min); eauto.
  - destruct (len (Value_String x) >? max); eauto.
  - destruct (contains String.eqb in_ (Value_String x)); cbn; eauto.
Qed.

(** When no validator panics, the loop appends the errors of the violated
    validators, in their order, under the name of the field. *)
Lemma run_validators_spec name fv validators :
  Forall (fun v => exists r, validate v fv = Ret r) validators ->
  forall errs,
    run_validators name fv validators errs =
    Ret (errs ++ map (mkValidationError name) (violations validators fv))%list.
Proof.
  induction 1 as [|v vs [r Hv] _ IH]; intros errs.
  - cbn. now rewrite app_nil_r.
  - cbn [run_validators]. unfold violations in *. cbn [flat_map].
    rewrite Hv. cbn [bind]. destruct r as [err|].
    + rewrite IH. cbn. now rewrite <- app_assoc.
    + rewrite IH. reflexivity.
Qed.

Lemma violations_length validators fv :
  List.length (violations validators fv)
  = List.length (filter (fun v => violated v fv) validators).
Proof.
  unfold violations, violated.
  induction validators as [|v vs IH]; [reflexivity|].
  cbn [flat_map filter]. rewrite length_app, IH.
  destruct (validate v fv) as [[err|]|]; reflexivity.
Qed.

(** The validators parsed for a field of kind [Int] or [String] do not
    panic on a value of that type. *)
Lemma parsed_validators_Ret fv text vs :
  reflect.Kind_of (reflect.type_of fv) = reflect.Int
  \/ reflect.Kind_of (reflect.type_of fv) = reflect.String ->
  parse_clauses (creators (reflect.type_of fv)) (strings.Split text ";") [] = inl vs ->
  Forall (fun v => exists r, validate v fv = Ret r) vs.
Proof.
  intros [K|K] H; destruct fv; try discriminate; unfold creators in H; cbn in H.
  - apply (parse_clauses_Forall _ _ intValidators_int) in H; [|constructor].
    eapply Forall_impl; [|exact H]. intros v. apply validate_int_Ret.
  - apply (parse_clauses_Forall _ _ strValidators_str) in H; [|constructor].
    eapply Forall_impl; [|exact H]. intros v. apply validate_str_Ret.
Qed.

Lemma parseValidators_leaf t text :
  reflect.Kind_of t = reflect.Int \/ reflect.Kind_of t = reflect.String ->
  parseValidators t text
  = Ret (parse_clauses (creators t) (strings.Split text ";") []).
Proof. unfold parseValidators, creators. intros [-> | ->]; reflexivity. Qed.

(* ================================================================== *)
(** ** What [Validate] computes *)

Lemma fold_left_wrap name nested : forall errs,
  fold_left (fun errs err =>
               (errs ++ [mkValidationError name (of_ValidationError err)])%list)
            nested errs
  = (errs ++ map (wrap name) nested)%list.
Proof.
  induction nested as [|e rest IH]; intros errs; cbn.
  - now rewrite app_nil_r.
  - rewrite IH, <- app_assoc. reflexivity.
Qed.

Lemma return_as_error (errs : ValidationErrors) :
  (if slice_len errs =? 0 then Ret None
   else Ret (Some (of_ValidationErrors errs))) = Ret (as_error errs).
Proof. destruct errs; reflexivity. Qed.

Lemma aggregate_as_error errs : aggregate (Ret (as_error errs)) = errs.
Proof. destruct errs; reflexivity. Qed.

Lemma needValidation_of_struct tag fs :
  needValidation_of tag (reflect.TStruct fs) = existsb needValidation fs.
Proof.
  cbn [needValidation_of].
  induction fs as [|f rest IH]; [reflexivity|].
  cbn [existsb]. rewrite <- IH. unfold needValidation, reflect.Typ.
  destruct (needValidation_of (reflect.Tag f) (reflect.Content f)); reflexivity.
Qed.

(** A field that needs validation is an [Int], a [String] or a struct. *)
Lemma needValidation_kind f :
  needValidation f = true ->
  reflect.Kind_of (reflect.Typ f) = reflect.Int
  \/ reflect.Kind_of (reflect.Typ f) = reflect.String
  \/ reflect.Kind_of (reflect.Typ f) = reflect.Struct.
Proof.
  unfold needValidation. destruct (reflect.Typ f); cbn; auto. discriminate.
Qed.

Lemma Validate_field_acc fld :
  returns_aggregate (reflect.Content fld) ->
  exists es, forall errs,
    Validate_field Validate_value fld errs = Ret (errs ++ es)%list.
Proof.
  destruct fld as [name pkg tag v]; cbn [reflect.Content]; intros Hrec.
  unfold Validate_field.
  destruct (needValidation _) eqn:Need; cbn [negb].
  2:{ exists []. intros errs. now rewrite app_nil_r. }
  destruct (reflect.IsExported _); cbn [negb].
  2:{ eexists. intros errs. reflexivity. }
  unfold reflect.descriptor, reflect.Typ in *.
  cbn [reflect.Content reflect.Name reflect.Tag] in *.
  destruct v as [i|s|fields|k i].
  - cbn [reflect.type_of reflect.Kind_of].
    rewrite parseValidators_leaf by (cbn; auto). cbn [bind].
    destruct (parse_clauses _ _ _) as [vs|err] eqn:Parse.
    + eexists. intros errs. apply run_validators_spec.
      apply (parsed_validators_Ret (reflect.VInt i) _ _ (or_introl eq_refl) Parse).
    + eexists. intros errs. reflexivity.
  - cbn [reflect.type_of reflect.Kind_of].
    rewrite parseValidators_leaf by (cbn; auto). cbn [bind].
    destruct (parse_clauses _ _ _) as [vs|err] eqn:Parse.
    + eexists. intros errs. apply run_validators_spec.
      apply (parsed_validators_Ret (reflect.VString s) _ _ (or_intror eq_refl) Parse).
    + eexists. intros errs. reflexivity.
  - cbn [reflect.type_of reflect.Kind_of].
    destruct (Hrec fields eq_refl) as [nested ->]. cbn [bind].
    destruct nested as [|e nested]; cbn [as_error].
    + exists []. intros errs. now rewrite app_nil_r.
    + exists (map (wrap name) (e :: nested)). intros errs.
      now rewrite fold_left_wrap.
  - discriminate Need.
Qed.

Lemma Validate_field_spec fld errs :
  returns_aggregate (reflect.Content fld) ->
  Validate_field Validate_value fld errs = Ret (errs ++ field_errors fld)%list.
Proof.
  intros Hrec. destruct (Validate_field_acc fld Hrec) as [es H].
  unfold field_errors. rewrite (H []), H. reflexivity.
Qed.

Lemma Validate_loop_spec fields :
  Forall (fun fld => returns_aggregate (reflect.Content fld)) fields ->
  forall errs,
    Validate_loop Validate_value fields errs
    = Ret (errs ++ flat_map field_errors fields)%list.
Proof.
  induction 1 as [|fld rest Hfld _ IH]; intros errs; cbn.
  - now rewrite app_nil_r.
  - rewrite (Validate_field_spec _ _ Hfld). cbn [bind].
    rewrite IH, <- app_assoc. reflexivity.
Qed.

(** [Validate] on a non-nil argument always returns: the shape error for
    anything but a struct, and for a struct the errors of its fields
    concatenated in the order of the fields (nil if there are none). *)
Theorem Validate_value_spec (v : reflect.value) :
  Validate_value v
  = Ret (match v with
         | reflect.VStruct fields => as_error (flat_map field_errors fields)
         | _ => Some ErrNotStruct
         end).
Proof.
  induction v as [i|s|fields IH|k i] using value_ind'; try reflexivity.
  cbn [Validate_value]. rewrite Validate_loop_spec.
  - cbn [bind app]. apply return_as_error.
  - eapply Forall_impl; [|exact IH]. intros fld H fs E.
    cbv beta in H. rewrite E in H |- *. rewrite H. eauto.
Qed.

Lemma Validate_struct (fields : list (reflect.Field reflect.value)) :
  Validate (Some (reflect.VStruct fields))
  = Ret (as_error (flat_map field_errors fields)).
Proof. apply (Validate_value_spec (reflect.VStruct fields)). Qed.

Lemma aggregate_struct (fields : list (reflect.Field reflect.value)) :
  aggregate (Validate (Some (reflect.VStruct fields)))
  = flat_map field_errors fields.
Proof. rewrite Validate_struct. apply aggregate_as_error. Qed.

(** The errors of a struct around one of its fields. *)
Lemma Validate_around pre fld post :
  Validate (Some (reflect.VStruct (pre ++ fld :: post)))
  = Ret (as_error
           (aggregate (Validate (Some (reflect.VStruct pre)))
            ++ field_errors fld
            ++ aggregate (Validate (Some (reflect.VStruct post))))%list).
Proof.
  rewrite !aggregate_struct, Validate_struct, flat_map_app. reflexivity.
Qed.

(* ================================================================== *)
(** ** The errors of one field, by the kind of field *)

Lemma field_errors_skipped fld :
  needValidation (reflect.descriptor fld) = false -> field_errors fld = [].
Proof. unfold field_errors, Validate_field. now intros ->. Qed.

Lemma field_errors_unexported fld :
  needValidation (reflect.descriptor fld) = true ->
  reflect.IsExported fld = false ->
  field_errors fld
  = [mkValidationError (reflect.Name fld) ErrValidateForUnexportedFields].
Proof.
  unfold field_errors, Validate_field. intros -> H.
  unfold reflect.IsExported, reflect.descriptor in *. cbn in *. now rewrite H.
Qed.

Lemma field_errors_leaf name tag fv text :
  reflect.Kind_of (reflect.type_of fv) = reflect.Int
  \/ reflect.Kind_of (reflect.type_of fv) = reflect.String ->
  reflect.Lookup tag "validate" = Some text ->
  field_errors (reflect.mkField name EmptyString tag fv)
  = match parse_clauses (creators (reflect.type_of fv))
                        (strings.Split text ";") [] with
    | inl validators => map (mkValidationError name) (violations validators fv)
    | inr err => [mkValidationError name err]
    end.
Proof.
  intros K L.
  unfold field_errors, Validate_field, needValidation.
  unfold reflect.descriptor, reflect.Typ, reflect.IsExported, reflect.Get.
  cbn [reflect.Content reflect.Name reflect.Tag reflect.PkgPath].
  assert (Need : needValidation_of tag (reflect.type_of fv) = true).
  { destruct fv; cbn in K |- *; try rewrite L; try reflexivity;
      destruct K; discriminate. }
  rewrite Need, L. cbn [negb String.eqb].
  rewrite (parseValidators_leaf _ _ K).
  pose proof (parsed_validators_Ret fv text) as Run.
  destruct fv; try (destruct K; discriminate);
    cbn [reflect.type_of reflect.Kind_of bind] in *;
    (destruct (parse_clauses _ _ _) as [vs|err]; [|reflexivity]);
    now rewrite (run_validators_spec _ _ _ (Run vs K eq_refl)).
Qed.

Lemma Forall_field_errors_nil fields :
  existsb needValidation (map reflect.descriptor fields) = false ->
  flat_map field_errors fields = [].
Proof.
  induction fields as [|fld rest IH]; [reflexivity|].
  cbn [map existsb flat_map]. intros H.
  apply orb_false_iff in H as [H1 H2].
  now rewrite (field_errors_skipped _ H1), IH.
Qed.

Lemma field_errors_nested name tag fields :
  field_errors (reflect.mkField name EmptyString tag (reflect.VStruct fields))
  = map (wrap name) (aggregate (Validate (Some (reflect.VStruct fields)))).
Proof.
  rewrite aggregate_struct.
  destruct (needValidation
              (reflect.descriptor
                 (reflect.mkField name EmptyString tag (reflect.VStruct fields))))
    eqn:Need.
  - remember (flat_map field_errors fields) as nested eqn:E.
    unfold field_errors, Validate_field. rewrite Need.
    unfold reflect.descriptor, reflect.Typ, reflect.IsExported.
    cbn [reflect.Content reflect.Name reflect.PkgPath reflect.type_of
         reflect.Kind_of negb String.eqb].
    rewrite (Validate_value_spec (reflect.VStruct fields)), <- E. cbn [bind].
    destruct nested as [|e es]; [reflexivity|].
    cbn [as_error]. now rewrite fold_left_wrap.
  - rewrite (field_errors_skipped _ Need).
    unfold needValidation, reflect.descriptor, reflect.Typ in Need.
    cbn [reflect.Content reflect.Tag reflect.type_of] in Need.
    rewrite needValidation_of_struct in Need.
    now rewrite (Forall_field_errors_nil _ Need).
Qed.

Lemma field_errors_other name pkg tag k i :
  field_errors (reflect.mkField name pkg tag (reflect.VOther k i)) = [].
Proof. reflexivity. Qed.

(** Every error of a field carries the name of the field. *)
Lemma field_errors_named fld :
  Forall (fun e => Field e = reflect.Name fld) (field_errors fld).
Proof.
  destruct (needValidation (reflect.descriptor fld)) eqn:Need.
  2:{ rewrite (field_errors_skipped _ Need). constructor. }
  destruct (reflect.IsExported fld) eqn:Ex.
  2:{ rewrite (field_errors_unexported _ Need Ex). repeat constructor. }
  destruct fld as [name pkg tag fv].
  unfold reflect.IsExported in Ex. cbn [reflect.PkgPath reflect.Name] in *.
  apply String.eqb_eq in Ex. subst pkg.
  destruct fv as [i|s|fields|k i].
  - unfold needValidation in Need. cbn in Need.
    destruct (reflect.Lookup tag "validate") as [text|] eqn:L; [|discriminate].
    rewrite (field_errors_leaf name tag (reflect.VInt i) text (or_introl eq_refl) L).
    destruct (parse_clauses _ _ _); [|repeat constructor].
    apply Forall_map, Forall_forall. reflexivity.
  - unfold needValidation in Need. cbn in Need.
    destruct (reflect.Lookup tag "validate") as [text|] eqn:L; [|discriminate].
    rewrite (field_errors_leaf name tag (reflect.VString s) text
               (or_intror eq_refl) L).
    destruct (parse_clauses _ _ _); [|repeat constructor].
    apply Forall_map, Forall_forall. reflexivity.
  - rewrite field_errors_nested. apply Forall_map, Forall_forall. reflexivity.
  - discriminate Need.
Qed.

(* ================================================================== *)
(** ** The shape of the argument *)

(** C1, at the nil interface value: [reflect.TypeOf] returns nil and the
    call of [Kind] on it panics, so [Validate] does not return the shape
    error [ErrNotStruct] for this input that is not a struct. *)
Theorem Validate_nil_panics : Validate None = Panic NilDereference.
Proof. reflexivity. Qed.

(** For every argument other than nil: [ErrNotStruct] is returned, alone,
    exactly when the kind of the argument is not [Struct]. *)
Lemma Validate_shape_error (v : reflect.value) :
  (reflect.Kind_of (reflect.type_of v) <> reflect.Struct ->
   Validate (Some v) = Ret (Some ErrNotStruct))
  /\ (reflect.Kind_of (reflect.type_of v) = reflect.Struct ->
      Validate (Some v) <> Ret (Some ErrNotStruct)).
Proof.
  unfold Validate; cbn [reflect.TypeOf option_map].
  rewrite Validate_value_spec. split; intros K.
  - destruct v; try reflexivity. now destruct K.
  - destruct v; try discriminate K.
    destruct (flat_map field_errors fields); discriminate.
Qed.

(* ================================================================== *)
(** ** Text constraints *)

Lemma text_rule_len validator s :
  str_validator validator = true -> text_rule len validator s.
Proof.
  destruct validator; cbn; intros H; try discriminate; try exact I;
    unfold violated; cbn.
  - destruct (Z.eqb_spec (len s) l); cbn; split; intros; congruence.
  - destruct (Z.ltb_spec (len s) min); split; intros; try lia; congruence.
  - destruct (Z.gtb_spec (len s) max); split; intros; try lia; congruence.
Qed.

(** C2, amended: every constraint parsed from the annotation of a text
    field is a text constraint, and [min], [max] and [len] are evaluated on
    the length of the string in bytes (the builtin [len]): [min] is violated
    iff the byte length is below the bound, [max] iff it is above the bound
    and [len] iff it differs from the required length. *)
Theorem text_constraints_use_byte_length text validators s :
  parseValidators reflect.TString text = Ret (inl validators) ->
  Forall (fun validator => text_rule len validator s) validators.
Proof.
  rewrite parseValidators_leaf by (cbn; auto). intros H.
  injection H as H. unfold creators in H; cbn in H.
  apply (parse_clauses_Forall _ _ strValidators_str) in H; [|constructor].
  eapply Forall_impl; [|exact H]. intros v. apply text_rule_len.
Qed.

(* ================================================================== *)
(** ** The constraints of a leaf field *)

(** C3: for a leaf field (kind [Int] or [String]) whose annotation parses
    into the validators [validators], every validator is evaluated (none
    panics) and the field contributes exactly the errors of the violated
    validators, one each and in the order of the validators, under its
    name: as many errors as there are violated validators. *)
Theorem all_constraints_evaluated pre post name tag fv text validators :
  reflect.Kind_of (reflect.type_of fv) = reflect.Int
  \/ reflect.Kind_of (reflect.type_of fv) = reflect.String ->
  reflect.Lookup tag "validate" = Some text ->
  parseValidators (reflect.type_of fv) text = Ret (inl validators) ->
  Validate (Some (reflect.VStruct
                    (pre ++ reflect.mkField name EmptyString tag fv :: post)))
  = Ret (as_error
           (aggregate (Validate (Some (reflect.VStruct pre)))
            ++ map (mkValidationError name) (violations validators fv)
            ++ aggregate (Validate (Some (reflect.VStruct post))))%list)
  /\ Forall (fun validator => exists r, validate validator fv = Ret r) validators
  /\ List.length (violations validators fv)
     = List.length (filter (fun validator => violated validator fv) validators).
Proof.
  intros K L P. rewrite (parseValidators_leaf _ _ K) in P. injection P as P.
  split; [|split].
  - rewrite Validate_around, (field_errors_leaf _ _ _ _ K L), P. reflexivity.
  - apply (parsed_validators_Ret _ _ _ K P).
  - apply violations_length.
Qed.

(* ================================================================== *)
(** ** Malformed annotations *)

(** C4: for a field type of kind [Int] or [String], if some clause of the
    annotation is not well formed (not exactly one colon, an empty key, an
    empty value, a key that is not in the table of the kind, or a value
    the creator rejects), [parseValidators] fails for the whole annotation
    with [ErrInvalidValidatorSyntax], and an exported field with this
    annotation contributes exactly that one error under its name, for any
    value of the field. *)
Theorem malformed_annotation_fails t text :
  reflect.Kind_of t = reflect.Int \/ reflect.Kind_of t = reflect.String ->
  existsb (fun kv => negb (clause_ok (creators t) kv)) (strings.Split text ";")
  = true ->
  parseValidators t text = Ret (inr ErrInvalidValidatorSyntax)
  /\ forall pre post name tag fv,
      reflect.type_of fv = t ->
      reflect.Lookup tag "validate" = Some text ->
      Validate (Some (reflect.VStruct
                        (pre ++ reflect.mkField name EmptyString tag fv :: post)))
      = Ret (as_error
               (aggregate (Validate (Some (reflect.VStruct pre)))
                ++ [mkValidationError name ErrInvalidValidatorSyntax]
                ++ aggregate (Validate (Some (reflect.VStruct post))))%list).
Proof.
  intros K Bad. pose proof (parse_clauses_bad _ _ [] Bad) as P.
  split.
  - now rewrite (parseValidators_leaf _ _ K), P.
  - intros pre post name tag fv <- L.
    rewrite Validate_around, (field_errors_leaf _ _ _ _ K L), P. reflexivity.
Qed.

(** Parsing is all or nothing: either the whole annotation is rejected or
    every clause gave a validator. *)
Lemma parseValidators_all_or_nothing t text :
  reflect.Kind_of t = reflect.Int \/ reflect.Kind_of t = reflect.String ->
  parseValidators t text = Ret (inr ErrInvalidValidatorSyntax)
  \/ exists validators,
      parseValidators t text = Ret (inl validators)
      /\ List.length validators = List.length (strings.Split text ";").
Proof.
  intros K. rewrite (parseValidators_leaf _ _ K).
  destruct (forallb (clause_ok (creators t)) (strings.Split text ";")) eqn:Ok.
  - right. destruct (parse_clauses_good _ _ [] Ok) as [vs [E L]].
    exists vs. now rewrite E.
  - left. rewrite parse_clauses_bad; [reflexivity|].
    apply not_true_iff_false in Ok. apply not_false_iff_true.
    intros Nb. apply Ok. apply forallb_forall. intros kv Hin.
    destruct (clause_ok (creators t) kv) eqn:C; [reflexivity|].
    assert (X : existsb (fun kv => negb (clause_ok (creators t) kv))
                        (strings.Split text ";") = true)
      by (apply existsb_exists; exists kv; now rewrite C).
    congruence.
Qed.

(* ================================================================== *)
(** ** Nested structs *)

(** C5: an exported field that holds a struct is validated by the same
    entry point and contributes every error of the nested aggregate wrapped
    under the name of the field, and nothing when the nested struct has no
    errors; through two levels of nesting every error of the innermost
    struct arrives wrapped under both field names with its cause unchanged.
    In particular, for a leaf field of the innermost struct whose
    annotation parses into [validators], the errors of its violated
    validators arrive in the outermost aggregate one for one, each wrapped
    under the name of the inner field and then of the outer field, with the
    violation message as the innermost cause. *)
Theorem nested_errors_wrapped pre post name tag fields outer inner tag1 tag2
    ipre ipost aname atag fv text validators :
  reflect.Kind_of (reflect.type_of fv) = reflect.Int
  \/ reflect.Kind_of (reflect.type_of fv) = reflect.String ->
  reflect.Lookup atag "validate" = Some text ->
  parseValidators (reflect.type_of fv) text = Ret (inl validators) ->
  Validate (Some (reflect.VStruct
                    (pre ++ reflect.mkField name EmptyString tag
                                            (reflect.VStruct fields) :: post)))
  = Ret (as_error
           (aggregate (Validate (Some (reflect.VStruct pre)))
            ++ map (wrap name)
                   (aggregate (Validate (Some (reflect.VStruct fields))))
            ++ aggregate (Validate (Some (reflect.VStruct post))))%list)
  /\ Validate
       (Some (reflect.VStruct
                [reflect.mkField outer EmptyString tag1
                   (reflect.VStruct
                      [reflect.mkField inner EmptyString tag2
                                       (reflect.VStruct fields)])]))
     = Ret (as_error
              (map (fun err => wrap outer (wrap inner err))
                   (aggregate (Validate (Some (reflect.VStruct fields))))))
  /\ Validate
       (Some (reflect.VStruct
                [reflect.mkField outer EmptyString tag1
                   (reflect.VStruct
                      [reflect.mkField inner EmptyString tag2
                         (reflect.VStruct
                            (ipre ++ reflect.mkField aname EmptyString atag fv
                                  :: ipost))])]))
     = Ret (as_error
              (map (fun err => wrap outer (wrap inner err))
                   (aggregate (Validate (Some (reflect.VStruct ipre)))
                    ++ map (mkValidationError aname) (violations validators fv)
                    ++ aggregate (Validate (Some (reflect.VStruct ipost))))%list)).
Proof.
  intros K L P. rewrite (parseValidators_leaf _ _ K) in P. injection P as P.
  assert (Two : forall fs,
             Validate
               (Some (reflect.VStruct
                        [reflect.mkField outer EmptyString tag1
                           (reflect.VStruct
                              [reflect.mkField inner EmptyString tag2
                                               (reflect.VStruct fs)])]))
             = Ret (as_error
                      (map (fun err => wrap outer (wrap inner err))
                           (aggregate (Validate (Some (reflect.VStruct fs))))))).
  { intros fs. rewrite Validate_struct. cbn [flat_map]. rewrite app_nil_r.
    rewrite field_errors_nested, aggregate_struct. cbn [flat_map].
    rewrite app_nil_r, field_errors_nested, map_map. reflexivity. }
  split; [|split].
  - now rewrite Validate_around, field_errors_nested.
  - apply Two.
  - rewrite Two, Validate_around, aggregate_as_error.
    now rewrite (field_errors_leaf _ _ _ _ K L), P.
Qed.

(* ================================================================== *)
(** ** Rendering the aggregate *)

Lemma range_Error (v : ValidationErrors) :
  (fix range (v : list (ValidationError_ error)) : list string :=
     match v with
     | [] => []
     | err :: rest => (Field err ++ ": " ++ Error (Err err)) :: range rest
     end) v
  = map ValidationError_Error v.
Proof. induction v as [|e rest IH]; [reflexivity|]. now rewrite IH. Qed.

(** C6: the string of an aggregate of exactly one error is the message of
    the cause of that error, without the name of the field; the string of
    an aggregate of two or more errors is the strings of its errors joined
    by line feeds, and the string of an error is the name of its field, a
    colon and a space, and the message of its cause. *)
Theorem aggregate_rendering (v0 v1 : ValidationError) (rest : ValidationErrors) :
  ValidationErrors_Error [v0] = Error (Err v0)
  /\ ValidationErrors_Error (v0 :: v1 :: rest)
     = strings.Join (map ValidationError_Error (v0 :: v1 :: rest)) LF
  /\ ValidationError_Error v0 = Field v0 ++ ": " ++ Error (Err v0).
Proof.
  split; [reflexivity|split; [|reflexivity]].
  unfold ValidationErrors_Error. cbn [Error]. now rewrite range_Error.
Qed.

(* ================================================================== *)
(** ** Fields that are not exported *)

Lemma as_error_cons (a b : ValidationErrors) (e : ValidationError) :
  as_error (a ++ e :: b)%list = Some (of_ValidationErrors (a ++ e :: b)%list).
Proof. destruct a; reflexivity. Qed.

(** C7: a field that is not exported and needs validation contributes
    exactly one error, [ErrValidateForUnexportedFields] under the name of
    the field; the fields before and after it are validated as usual, and
    the result is the same for every other value [fv'] of the field's
    type, whatever the text of the annotation. *)
Theorem unexported_field_reported pre post name pkg tag fv fv' :
  pkg <> EmptyString ->
  needValidation (reflect.descriptor (reflect.mkField name pkg tag fv)) = true ->
  reflect.type_of fv' = reflect.type_of fv ->
  Validate (Some (reflect.VStruct
                    (pre ++ reflect.mkField name pkg tag fv :: post)))
  = Ret (Some (of_ValidationErrors
                 (aggregate (Validate (Some (reflect.VStruct pre)))
                  ++ [mkValidationError name ErrValidateForUnexportedFields]
                  ++ aggregate (Validate (Some (reflect.VStruct post))))%list))
  /\ Validate (Some (reflect.VStruct
                       (pre ++ reflect.mkField name pkg tag fv' :: post)))
     = Validate (Some (reflect.VStruct
                         (pre ++ reflect.mkField name pkg tag fv :: post))).
Proof.
  intros Hpkg Need Ty.
  assert (Ex : forall x : reflect.value,
             reflect.IsExported (reflect.mkField name pkg tag x) = false).
  { intros x. unfold reflect.IsExported. cbn. now apply String.eqb_neq. }
  assert (Need' : needValidation
                    (reflect.descriptor (reflect.mkField name pkg tag fv')) = true).
  { unfold reflect.descriptor in *. cbn in *. now rewrite Ty. }
  rewrite !Validate_around.
  rewrite (field_errors_unexported _ Need (Ex fv)).
  rewrite (field_errors_unexported _ Need' (Ex fv')).
  cbn [reflect.Name app]. now rewrite as_error_cons.
Qed.

(* ================================================================== *)
(** ** Other kinds of fields *)

(** C10: a field whose kind is neither [Int], [String] nor [Struct] (a
    sized or unsigned integer, for one) never needs validation, and
    [Validate] skips it: the result is that of the struct without the
    field, whatever the annotation, the value and the export status of the
    field. *)
Theorem other_kinds_skipped pre post name pkg tag k i :
  needValidation
    (reflect.descriptor (reflect.mkField name pkg tag (reflect.VOther k i)))
  = false
  /\ Validate (Some (reflect.VStruct
                       (pre ++ reflect.mkField name pkg tag (reflect.VOther k i)
                            :: post)))
     = Validate (Some (reflect.VStruct (pre ++ post))).
Proof.
  split; [reflexivity|].
  rewrite !Validate_struct, !flat_map_app. cbn [flat_map].
  now rewrite field_errors_other.
Qed.

(* ================================================================== *)
(** ** The order of the errors *)

Lemma field_errors_contribution fld :
  field_errors fld
  = field_contribution (fun v => aggregate (Validate_value v)) fld.
Proof.
  unfold field_contribution.
  destruct (needValidation (reflect.descriptor fld)) eqn:Need; cbn [negb].
  2:{ apply (field_errors_skipped _ Need). }
  destruct (reflect.IsExported fld) eqn:Ex; cbn [negb].
  2:{ apply (field_errors_unexported _ Need Ex). }
  destruct fld as [name pkg tag fv].
  unfold reflect.IsExported in Ex.
  cbn [reflect.PkgPath reflect.Name reflect.Content reflect.Tag] in *.
  apply String.eqb_eq in Ex. subst pkg.
  unfold needValidation in Need.
  destruct fv as [i|s|fields|k i]; cbn in Need.
  - destruct (reflect.Lookup tag "validate") as [text|] eqn:L; [|discriminate].
    rewrite (field_errors_leaf name tag (reflect.VInt i) text (or_introl eq_refl) L).
    unfold reflect.Get. rewrite L.
    destruct (parse_clauses _ _ _) as [vs|err] eqn:P; [reflexivity|].
    now rewrite (parse_clauses_error _ _ _ _ P).
  - destruct (reflect.Lookup tag "validate") as [text|] eqn:L; [|discriminate].
    rewrite (field_errors_leaf name tag (reflect.VString s) text
               (or_intror eq_refl) L).
    unfold reflect.Get. rewrite L.
    destruct (parse_clauses _ _ _) as [vs|err] eqn:P; [reflexivity|].
    now rewrite (parse_clauses_error _ _ _ _ P).
  - apply field_errors_nested.
  - discriminate Need.
Qed.

Lemma aggregate_expected (v : reflect.value) :
  aggregate (Validate_value v) = expected_errors v.
Proof.
  induction v as [i|s|fields IH|k i] using value_ind'; try reflexivity.
  rewrite Validate_value_spec, aggregate_as_error. cbn [expected_errors].
  induction IH as [|fld rest Hfld _ IHrest]; [reflexivity|].
  cbn [flat_map]. rewrite IHrest, field_errors_contribution. f_equal.
  unfold field_contribution. now rewrite Hfld.
Qed.

(** C8: for a struct, [Validate] returns the errors of the fields in the
    order the fields are declared, and within a leaf field in the order of
    the constraints of its annotation ([expected_errors]); when there is no
    error at all, in particular when no field needs validation, it returns
    nil, and it never returns an empty aggregate. *)
Theorem errors_in_declaration_order (fields : list (reflect.Field reflect.value)) :
  Validate (Some (reflect.VStruct fields))
  = Ret (as_error (expected_errors (reflect.VStruct fields)))
  /\ Validate (Some (reflect.VStruct fields))
     <> Ret (Some (of_ValidationErrors []))
  /\ (if existsb needValidation (map reflect.descriptor fields) then True
      else Validate (Some (reflect.VStruct fields)) = Ret None).
Proof.
  rewrite <- aggregate_expected, (Validate_value_spec (reflect.VStruct fields)).
  rewrite aggregate_as_error, Validate_struct.
  split; [reflexivity|split].
  - destruct (flat_map field_errors fields); discriminate.
  - destruct (existsb _ _) eqn:Need; [exact I|].
    now rewrite (Forall_field_errors_nil _ Need).
Qed.

(* ================================================================== *)
(** ** No panic *)

(** C9: whenever [Validate] reaches the call of [parseValidators] for a
    field (the field needs validation and is not a struct), the kind of the
    field is [Int] or [String] and the call returns; [Validate] returns for
    every argument other than nil, and for no argument at all does it panic
    with the unsupported-type panic of the parser. *)
Theorem unsupported_type_unreachable (f : reflect.StructField) (text : string)
    (v : reflect.value) (a : reflect.any) :
  (needValidation f = true ->
   reflect.Kind_of (reflect.Typ f) <> reflect.Struct ->
   (reflect.Kind_of (reflect.Typ f) = reflect.Int
    \/ reflect.Kind_of (reflect.Typ f) = reflect.String)
   /\ exists r, parseValidators (reflect.Typ f) text = Ret r)
  /\ (exists r, Validate (Some v) = Ret r)
  /\ (forall msg, Validate a <> Panic (UnsupportedType msg)).
Proof.
  split; [|split].
  - intros Need NotStruct.
    assert (K : reflect.Kind_of (reflect.Typ f) = reflect.Int
                \/ reflect.Kind_of (reflect.Typ f) = reflect.String)
      by (destruct (needValidation_kind f Need) as [K|[K|K]]; tauto).
    split; [exact K|]. rewrite (parseValidators_leaf _ _ K). eauto.
  - unfold Validate; cbn [reflect.TypeOf option_map].
    rewrite Validate_value_spec. eauto.
  - intros msg. destruct a as [x|]; unfold Validate;
      cbn [reflect.TypeOf option_map]; [|discriminate].
    rewrite Validate_value_spec. discriminate.
Qed.

(* ================================================================== *)
(** ** Membership and the integer lists *)

Lemma contains_In {T : Type} (eqb : T -> T -> bool)
    (eqb_eq : forall a b, eqb a b = true <-> a = b) (s : list T) (needle : T) :
  contains eqb s needle = true <-> In needle s.
Proof.
  induction s as [|v rest IH]; cbn.
  - split; [discriminate|tauto].
  - destruct (eqb v needle) eqn:E.
    + apply eqb_eq in E. tauto.
    + rewrite IH. split; [tauto|]. intros [H|H]; [|exact H].
      apply eqb_eq in H. congruence.
Qed.

(** X1: [contains] decides membership, for the two element types it is used
    with: it returns true exactly when the needle is an element of the
    slice. *)
Theorem contains_membership (ints : list Z) (i : Z) (strs : list string)
    (s : string) :
  (contains Z.eqb ints i = true <-> In i ints)
  /\ (contains String.eqb strs s = true <-> In s strs).
Proof.
  split; apply contains_In; [apply Z.eqb_eq|apply String.eqb_eq].
Qed.

Lemma all_some_map_Some {A : Type} (l : list (option A)) (values : list A) :
  all_some l = Some values <-> l = map Some values.
Proof.
  revert values. induction l as [|[a|] rest IH]; intros values; cbn.
  - split; [intros [= <-]; reflexivity|]. destruct values; [reflexivity|discriminate].
  - destruct (all_some rest) as [vs|].
    + split.
      * intros [= <-]. cbn. f_equal. now apply IH.
      * destruct values as [|b values]; [discriminate|]. cbn. intros [= <- H].
        apply IH in H. now injection H as <-.
    + split; [discriminate|].
      destruct values as [|b values]; [discriminate|]. cbn. intros [= <- H].
      apply IH in H. discriminate.
  - split; [discriminate|]. destruct values; discriminate.
Qed.

Lemma parseIntSlice_range (strVals : list string) : forall intVals,
  (fix range (strVals : list string) (intVals : list Z) : option (list Z) :=
     match strVals with
     | [] => Some intVals
     | v :: rest =>
         match strconv.Atoi v with
         | None => None
         | Some val => range rest (intVals ++ [val])%list
         end
     end) strVals intVals
  = option_map (app intVals) (all_some (map strconv.Atoi strVals)).
Proof.
  induction strVals as [|v rest IH]; intros intVals; cbn.
  - now rewrite app_nil_r.
  - destruct (strconv.Atoi v) as [val|]; [|reflexivity].
    rewrite IH. destruct (all_some _); cbn; [|reflexivity].
    now rewrite <- app_assoc.
Qed.

Lemma parseIntSlice_all_some (s : string) :
  parseIntSlice s = all_some (map strconv.Atoi (strings.Split s ",")).
Proof.
  unfold parseIntSlice. rewrite parseIntSlice_range.
  destruct (all_some _); reflexivity.
Qed.

Lemma Split_cons (s : string) (sep : ascii) :
  exists piece pieces, strings.Split s sep = piece :: pieces.
Proof.
  destruct s as [|c s]; cbn; [eauto|].
  destruct (Ascii.eqb c sep); [eauto|].
  destruct (strings.Split s sep); eauto.
Qed.

Lemma parseIntSlice_Some (s : string) (vals : list Z) :
  parseIntSlice s = Some vals
  <-> map strconv.Atoi (strings.Split s ",") = map Some vals.
Proof. rewrite parseIntSlice_all_some. apply all_some_map_Some. Qed.

Lemma parseIntSlice_not_nil (s : string) : parseIntSlice s <> Some [].
Proof.
  intros H. apply parseIntSlice_Some in H.
  destruct (Split_cons s ",") as [piece [pieces E]]. rewrite E in H.
  discriminate.
Qed.

(** X2: [parseIntSlice] succeeds exactly when [strconv.Atoi] accepts every
    piece between the commas, and then returns the values of the pieces in
    their order; the list it returns is never empty. *)
Theorem parseIntSlice_spec (s : string) (vals : list Z) :
  (parseIntSlice s = Some vals
   <-> map strconv.Atoi (strings.Split s ",") = map Some vals)
  /\ parseIntSlice s <> Some [].
Proof. split; [apply parseIntSlice_Some|apply parseIntSlice_not_nil]. Qed.

(* ================================================================== *)
(** ** The evaluation of the constraints *)

Lemma int_rule_holds validator i :
  int_validator validator = true -> int_rule validator i.
Proof.
  destruct validator; cbn; intros H; try discriminate; unfold violated; cbn.
  - destruct (Z.ltb_spec i min); split; intros; try lia; congruence.
  - destruct (Z.gtb_spec i max); split; intros; try lia; congruence.
  - pose proof (contains_In Z.eqb Z.eqb_eq in_ i) as C.
    destruct (contains Z.eqb in_ i); cbn; split; intros H1; try congruence.
    + destruct H1. now apply C.
    + intros H2. apply C in H2. discriminate.
Qed.

(** X4: Every constraint parsed from the annotation of an integer field is an
    integer constraint, and on the value [i] of the field [min] reports a
    violation iff [i] is below the bound, [max] iff [i] is above the bound
    and [in] iff [i] is not one of the listed integers. *)
Theorem integer_constraints_rule text validators i :
  parseValidators reflect.TInt text = Ret (inl validators) ->
  Forall (fun validator => int_rule validator i) validators.
Proof.
  rewrite parseValidators_leaf by (cbn; auto). intros H.
  injection H as H. unfold creators in H; cbn in H.
  apply (parse_clauses_Forall _ _ intValidators_int) in H; [|constructor].
  eapply Forall_impl; [|exact H]. intros v. apply int_rule_holds.
Qed.

(** X5: The text constraint [in] never rejects its parameter: the allowed
    strings are the pieces of the parameter between its commas (empty
    pieces included), and a text [s] violates the constraint exactly when
    it is none of them. *)
Theorem text_in_rule (param s : string) :
  exists validator,
    newStrInValidator param = Some validator
    /\ (violated validator (reflect.VString s) = true
        <-> ~ In s (strings.Split param ",")).
Proof.
  eexists. split; [reflexivity|]. unfold violated; cbn.
  pose proof (contains_In String.eqb String.eqb_eq (strings.Split param ",") s) as C.
  destruct (contains String.eqb _ s); cbn; split; intros H1; try congruence.
  - destruct H1. now apply C.
  - intros H2. apply C in H2. discriminate.
Qed.

(** X9: A [validate] method panics in exactly one situation: an integer
    validator applied to a value that is not a signed integer, where
    [reflect.Value.Int] panics.  The text validators return on every
    value. *)
Theorem validate_panics_iff (validator : fieldValidator) (x : reflect.value) :
  (validate validator x = Panic (ValueKind "Int")
   <-> int_validator validator = true /\ signed_int x = false)
  /\ (validate validator x = Panic (ValueKind "Int")
      \/ exists r, validate validator x = Ret r).
Proof.
  assert (I : signed_int x = true -> exists i, Value_Int x = Ret i).
  { destruct x as [i|s|fs|k i]; try discriminate; cbn; eauto.
    destruct k; try discriminate; eauto. }
  assert (N : signed_int x = false -> Value_Int x = Panic (ValueKind "Int")).
  { destruct x as [i|s|fs|k i]; try discriminate; cbn; eauto.
    destruct k; try discriminate; eauto. }
  destruct (int_validator validator) eqn:V.
  - destruct (signed_int x) eqn:S.
    + destruct (I eq_refl) as [i E].
      destruct (validate_int_Ret validator i V) as [r R].
      assert (R' : validate validator x = Ret r).
      { destruct validator; try discriminate V; cbn in R |- *; now rewrite E. }
      rewrite R'. split; [|eauto]. split; [discriminate|]. intros [_ F]. discriminate.
    + assert (R' : validate validator x = Panic (ValueKind "Int")).
      { destruct validator; try discriminate V; cbn; now rewrite (N eq_refl). }
      rewrite R'. split; [tauto|]. now left.
  - destruct (validate_str_Ret validator x) as [r R].
    { unfold str_validator. now rewrite V. }
    rewrite R. split; [|eauto]. split; [discriminate|]. intros [F _]. discriminate.
Qed.

(** X7: Negative length parameters are accepted and evaluated as they stand:
    no text is shorter than a bound [min] that is zero or negative, and
    every text violates a [max] or a [len] that is negative. *)
Theorem negative_text_bounds (n : Z) (s : string) :
  (n <= 0 -> violated (strMinValidator n) (reflect.VString s) = false)
  /\ (n < 0 -> violated (strMaxValidator n) (reflect.VString s) = true)
  /\ (n < 0 -> violated (strLenValidator n) (reflect.VString s) = true).
Proof.
  assert (L : 0 <= len s) by (unfold len; lia).
  unfold violated; cbn. repeat split; intros H.
  - destruct (Z.ltb_spec (len s) n); [lia|reflexivity].
  - destruct (Z.gtb_spec (len s) n); [reflexivity|lia].
  - destruct (Z.eqb_spec (len s) n); [lia|reflexivity].
Qed.

(* ================================================================== *)
(** ** Parsing, clause by clause *)

Lemma Split_app (a b : string) (sep : ascii) :
  strings.Split (a ++ String sep b) sep
  = (strings.Split a sep ++ strings.Split b sep)%list.
Proof.
  induction a as [|c a IH]; cbn.
  - now rewrite Ascii.eqb_refl.
  - destruct (Ascii.eqb c sep); [now rewrite IH|]. rewrite IH.
    destruct (Split_cons a sep) as [piece [pieces ->]]. reflexivity.
Qed.

Lemma Split_free (s : string) (sep : ascii) :
  free_of sep s = true -> strings.Split s sep = [s].
Proof.
  induction s as [|c s IH]; cbn; [reflexivity|]. intros H.
  apply andb_true_iff in H as [Hc Hs]. apply negb_true_iff in Hc.
  now rewrite Hc, (IH Hs).
Qed.

Lemma clause_ok_validator (tbl : list (string * fieldValidatorCreator)) kv :
  clause_ok tbl kv
  = match clause_validator tbl kv with Some _ => true | None => false end.
Proof.
  unfold clause_ok, clause_validator.
  destruct (strings.Split kv ":") as [|k [|v [|w l]]]; try reflexivity.
  destruct (String.eqb k EmptyString), (String.eqb v EmptyString);
    try reflexivity; cbn.
  destruct (map_index tbl k) as [create|]; [|reflexivity].
  destruct (create v); reflexivity.
Qed.

Lemma parse_clauses_all_some (tbl : list (string * fieldValidatorCreator)) kvs :
  forall acc,
  parse_clauses tbl kvs acc
  = match all_some (map (clause_validator tbl) kvs) with
    | Some validators => inl (acc ++ validators)%list
    | None => inr ErrInvalidValidatorSyntax
    end.
Proof.
  induction kvs as [|kv rest IH]; intros acc.
  - cbn. now rewrite app_nil_r.
  - rewrite parse_clauses_cons, clause_ok_validator. cbn [map all_some].
    unfold clause_validator.
    destruct (strings.Split kv ":") as [|k [|v [|w l]]]; try reflexivity.
    destruct (String.eqb k EmptyString || String.eqb v EmptyString);
      [reflexivity|].
    destruct (map_index tbl k) as [create|]; [|reflexivity].
    destruct (create v) as [validator|]; [|reflexivity].
    rewrite IH. destruct (all_some _); [|reflexivity].
    now rewrite <- app_assoc.
Qed.

(** X10: For a type of kind [Int] or [String], [parseValidators] returns the
    validators of the clauses between the semicolons, one per clause and
    in the order of the clauses, when every clause is well formed; as soon
    as one clause is not, it returns [ErrInvalidValidatorSyntax] and no
    other error. *)
Theorem parseValidators_clauses t text :
  reflect.Kind_of t = reflect.Int \/ reflect.Kind_of t = reflect.String ->
  parseValidators t text
  = Ret (match all_some (map (clause_validator (creators t))
                             (strings.Split text ";")) with
         | Some validators => inl validators
         | None => inr ErrInvalidValidatorSyntax
         end).
Proof.
  intros K. now rewrite (parseValidators_leaf _ _ K), parse_clauses_all_some.
Qed.

Lemma all_some_app {A : Type} (l1 l2 : list (option A)) :
  all_some (l1 ++ l2)
  = match all_some l1, all_some l2 with
    | Some v1, Some v2 => Some (v1 ++ v2)%list
    | _, _ => None
    end.
Proof.
  induction l1 as [|[a|] l1 IH]; cbn.
  - destruct (all_some l2); reflexivity.
  - rewrite IH. destruct (all_some l1), (all_some l2); reflexivity.
  - reflexivity.
Qed.

(** X11: Annotations compose with the semicolon: for a type of kind [Int] or
    [String], the annotation [a;b] parses exactly when [a] and [b] both
    parse, into the validators of [a] followed by those of [b]. *)
Theorem parseValidators_semicolon t a b :
  reflect.Kind_of t = reflect.Int \/ reflect.Kind_of t = reflect.String ->
  parseValidators t (a ++ ";" ++ b)
  = match parseValidators t a, parseValidators t b with
    | Ret (inl va), Ret (inl vb) => Ret (inl (va ++ vb)%list)
    | _, _ => Ret (inr ErrInvalidValidatorSyntax)
    end.
Proof.
  intros K. rewrite !(parseValidators_leaf _ _ K), !parse_clauses_all_some.
  change (a ++ ";" ++ b) with (a ++ String ";" b).
  rewrite Split_app, map_app, all_some_app.
  destruct (all_some (map (clause_validator (creators t)) (strings.Split a ";"))),
    (all_some (map (clause_validator (creators t)) (strings.Split b ";")));
    reflexivity.
Qed.

(** X12: [parseValidators] panics exactly for the types whose kind is neither
    [Int] nor [String], whatever the annotation; the panic is the
    unsupported-type panic with the printed type in its message. *)
Theorem parseValidators_panics_iff t text :
  ((exists p, parseValidators t text = Panic p)
   <-> reflect.Kind_of t <> reflect.Int /\ reflect.Kind_of t <> reflect.String)
  /\ (forall p, parseValidators t text = Panic p ->
      p = UnsupportedType ("unsupported type: " ++ type_String t)).
Proof.
  unfold parseValidators.
  destruct t; cbn; (split; [split|]);
    try (intros [p H]; discriminate H);
    try (intros [H1 H2]; congruence);
    try (intros _; eauto);
    try (split; discriminate);
    try (intros p H; congruence).
Qed.

(* ================================================================== *)
(** ** The parameters of the parsed validators *)

Lemma Atoi_fits s n : strconv.Atoi s = Some n -> fits_int n.
Proof.
  unfold strconv.Atoi, fits_int.
  destruct (match s with
            | String "-" rest => (true, rest)
            | String "+" rest => (false, rest)
            | _ => (false, s)
            end) as [neg body].
  destruct body as [|c body]; [discriminate|].
  destruct (strconv.digits (String c body) 0) as [m|]; [|discriminate].
  destruct (_ && _) eqn:R; [|discriminate]. intros [= <-].
  apply andb_true_iff in R as [R1 R2].
  apply Z.leb_le in R1, R2. auto.
Qed.

Lemma parameters_ok_created (tbl : list (string * fieldValidatorCreator)) :
  tbl = intValidators \/ tbl = strValidators ->
  forall k create v x,
    map_index tbl k = Some create -> create v = Some x -> parameters_ok x.
Proof.
  intros [-> | ->] k create v x Hk Hv; cbn [map_index intValidators strValidators] in Hk;
    unfold intValidators, strValidators in Hk; cbn [map_index] in Hk; by_key k;
    try discriminate; injection Hk as <-;
    unfold newIntMinValidator, newIntMaxValidator, newIntInValidator,
           newStrLenValidator, newStrMinValidator, newStrMaxValidator,
           newStrInValidator in Hv;
    try (destruct (strconv.Atoi v) as [n|] eqn:A; [|discriminate];
         injection Hv as <-; exact (Atoi_fits _ _ A)).
  - destruct (parseIntSlice v) as [vals|] eqn:P; [|discriminate].
    injection Hv as <-. cbn. split.
    + intros ->. now apply (parseIntSlice_not_nil v).
    + apply parseIntSlice_Some in P.
      apply Forall_forall. intros n Hn.
      assert (Hs : In (Some n) (map strconv.Atoi (strings.Split v ",")))
        by (rewrite P; now apply in_map).
      apply in_map_iff in Hs as [piece [A _]]. exact (Atoi_fits _ _ A).
  - injection Hv as <-. cbn.
    destruct (Split_cons v ",") as [piece [pieces ->]]. discriminate.
Qed.

(** X13: Every validator [parseValidators] returns holds parameters the
    validators can work with: a bound or a length fits an [int], a list of
    allowed values is not empty and its integers fit an [int]; and at
    least one validator is returned. *)
Theorem parsed_parameters_ok t text validators :
  parseValidators t text = Ret (inl validators) ->
  validators <> [] /\ Forall parameters_ok validators.
Proof.
  intros H.
  assert (K : reflect.Kind_of t = reflect.Int \/ reflect.Kind_of t = reflect.String).
  { unfold parseValidators in H. destruct t; cbn in *; auto; discriminate. }
  split.
  - destruct (parseValidators_all_or_nothing t text K) as [E|[vs [E L]]];
      rewrite E in H; [discriminate|]. injection H as <-.
    destruct (Split_cons text ";") as [piece [pieces S]]. rewrite S in L.
    intros ->. discriminate.
  - rewrite (parseValidators_leaf _ _ K) in H. injection H as H.
    refine (parse_clauses_Forall _ _ (parameters_ok_created _ _) _ _ _ (Forall_nil _) H).
    unfold creators. destruct K as [-> | ->]; auto.
Qed.

(* ================================================================== *)
(** ** Which fields need validation *)

Lemma needValidation_of_annotated (t : reflect.type) :
  forall name pkg tag,
    needValidation_of tag t = true -> annotated (reflect.mkField name pkg tag t).
Proof.
  induction t as [| |fields IH|k] using type_ind'; intros name pkg tag H.
  - cbn in H. destruct (reflect.Lookup tag "validate") eqn:L; [|discriminate].
    eapply annotated_int; eauto.
  - cbn in H. destruct (reflect.Lookup tag "validate") eqn:L; [|discriminate].
    eapply annotated_string; eauto.
  - rewrite needValidation_of_struct in H.
    apply existsb_exists in H as [f [Hin Hf]].
    apply (annotated_struct _ _ _ _ f Hin).
    rewrite Forall_forall in IH. specialize (IH f Hin).
    destruct f as [n p tg ty]. apply IH. exact Hf.
  - discriminate.
Qed.

(** X14: [needValidation] is true exactly for the annotated fields: a field of
    kind [Int] or [String] whose tag has the key [validate], or a struct
    that has such a field at any depth.  The tag of a struct field itself,
    the names and the export status play no part. *)
Theorem needValidation_annotated (f : reflect.StructField) :
  needValidation f = true <-> annotated f.
Proof.
  split.
  - destruct f as [name pkg tag t]. apply needValidation_of_annotated.
  - induction 1 as [name pkg tag text L|name pkg tag text L
                    |name pkg tag fields f Hin _ IH];
      unfold needValidation; cbn.
    + now rewrite L.
    + now rewrite L.
    + change (needValidation_of tag (reflect.TStruct fields) = true).
      rewrite needValidation_of_struct. apply existsb_exists. eauto.
Qed.

(* ================================================================== *)
(** ** The errors of the aggregate *)

Lemma violations_le validators fv :
  (List.length (violations validators fv) <= List.length validators)%nat.
Proof. rewrite violations_length. apply filter_length_le. Qed.

(** X15: An exported leaf field never contributes more errors than its
    annotation has clauses. *)
Theorem leaf_errors_bounded name tag fv text :
  reflect.Kind_of (reflect.type_of fv) = reflect.Int
  \/ reflect.Kind_of (reflect.type_of fv) = reflect.String ->
  reflect.Lookup tag "validate" = Some text ->
  (List.length
     (aggregate (Validate (Some (reflect.VStruct
                                   [reflect.mkField name EmptyString tag fv]))))
   <= List.length (strings.Split text ";"))%nat.
Proof.
  intros K L. rewrite aggregate_struct. cbn [flat_map]. rewrite app_nil_r.
  rewrite (field_errors_leaf _ _ _ _ K L), parse_clauses_all_some.
  destruct (all_some _) as [vs|] eqn:A; cbn [app].
  - rewrite length_map. etransitivity; [apply violations_le|].
    apply all_some_map_Some in A.
    apply (f_equal (@List.length _)) in A. rewrite !length_map in A. lia.
  - destruct (Split_cons text ";") as [piece [pieces ->]]. cbn. lia.
Qed.

(** X16: Every error of the aggregate carries the name of a field of the
    struct, a field that needs validation. *)
Theorem errors_name_fields fields :
  Forall (fun e =>
            exists fld, In fld fields /\ Field e = reflect.Name fld
                        /\ needValidation (reflect.descriptor fld) = true)
         (aggregate (Validate (Some (reflect.VStruct fields)))).
Proof.
  rewrite aggregate_struct. apply Forall_forall. intros e He.
  apply in_flat_map in He as [fld [Hin He]]. exists fld.
  pose proof (field_errors_named fld) as N. rewrite Forall_forall in N.
  repeat split; auto.
  destruct (needValidation (reflect.descriptor fld)) eqn:Need; [reflexivity|].
  rewrite (field_errors_skipped _ Need) in He. destruct He.
Qed.

Lemma violations_Errorf validators x :
  Forall (fun e => field_cause e = true) (violations validators x).
Proof.
  unfold violations. apply Forall_flat_map, Forall_forall. intros v _.
  destruct v; cbn;
    repeat match goal with
      | |- context [Value_Int ?x] => destruct (Value_Int x); cbn
      | |- context [if ?b then _ else _] => destruct b; cbn
      end; repeat constructor.
Qed.

Lemma expected_errors_causes (v : reflect.value) :
  Forall (fun e => field_cause (Err e) = true) (expected_errors v).
Proof.
  induction v as [i|s|fields IH|k i] using value_ind'; try constructor.
  cbn [expected_errors]. apply Forall_flat_map.
  eapply Forall_impl; [|exact IH]. intros fld Hfld. unfold field_contribution.
  destruct (needValidation _); cbn [negb]; [|constructor].
  destruct (reflect.IsExported fld); cbn [negb]; [|repeat constructor].
  destruct (reflect.Content fld) as [i|s|fs|k i] eqn:C.
  - destruct (parse_clauses _ _ _); [|repeat constructor].
    apply Forall_map. apply violations_Errorf.
  - destruct (parse_clauses _ _ _); [|repeat constructor].
    apply Forall_map. apply violations_Errorf.
  - apply Forall_map. cbv beta in Hfld. rewrite C in Hfld. exact Hfld.
  - constructor.
Qed.

(** X17: The cause of an error of the aggregate is the unexported-field error,
    the malformed-annotation error, a violation message, or such an error
    of a nested struct under the name of its field; it is never the shape
    error [ErrNotStruct] and never a whole aggregate. *)
Theorem aggregate_causes (v : reflect.value) :
  Forall (fun e => field_cause (Err e) = true) (aggregate (Validate (Some v))).
Proof.
  change (Validate (Some v)) with (Validate_value v).
  rewrite aggregate_expected. apply expected_errors_causes.
Qed.

(** X18: Validation distributes over the fields: the errors of a struct with
    the fields [fs1] followed by [fs2] are the errors for [fs1] followed by
    the errors for [fs2], and the struct is valid exactly when both parts
    are. *)
Theorem Validate_fields_append fs1 fs2 :
  aggregate (Validate (Some (reflect.VStruct (fs1 ++ fs2))))
  = (aggregate (Validate (Some (reflect.VStruct fs1)))
     ++ aggregate (Validate (Some (reflect.VStruct fs2))))%list
  /\ (Validate (Some (reflect.VStruct (fs1 ++ fs2))) = Ret None
      <-> Validate (Some (reflect.VStruct fs1)) = Ret None
          /\ Validate (Some (reflect.VStruct fs2)) = Ret None).
Proof.
  rewrite !aggregate_struct, !Validate_struct, flat_map_app.
  split; [reflexivity|].
  destruct (flat_map field_errors fs1), (flat_map field_errors fs2); cbn;
    split; try intros [H1 H2]; try discriminate; auto.
Qed.

(* ================================================================== *)
(** ** Parameters written in decimal *)

Ltac eval_digit :=
  match goal with
  | |- context [strconv.digit ?c] =>
      let v := eval vm_compute in (strconv.digit c) in
      change (strconv.digit c) with v
  end.

Lemma digits_of_uint_acc (d : Decimal.uint) : forall acc : positive,
  strconv.digits (NilEmpty.string_of_uint d) (Z.pos acc)
  = Some (Z.pos (Pos.of_uint_acc d acc)).
Proof.
  induction d as [|d IH|d IH|d IH|d IH|d IH|d IH|d IH|d IH|d IH|d IH];
    intros acc; cbn [NilEmpty.string_of_uint strconv.digits Pos.of_uint_acc];
    [reflexivity|..]; eval_digit; cbv beta iota; rewrite <- IH; f_equal; lia.
Qed.

Lemma digits_of_uint (d : Decimal.uint) :
  strconv.digits (NilEmpty.string_of_uint d) 0
  = Some (Z.of_N (Pos.of_uint d)).
Proof.
  induction d as [|d IH|d IH|d IH|d IH|d IH|d IH|d IH|d IH|d IH|d IH];
    cbn [NilEmpty.string_of_uint strconv.digits Pos.of_uint];
    [reflexivity|..]; eval_digit; cbv beta iota;
    [exact IH|..]; cbn [Z.of_N]; rewrite <- digits_of_uint_acc; f_equal.
Qed.

Lemma Atoi_of_uint (d : Decimal.uint) (neg : bool) :
  d <> Decimal.Nil ->
  strconv.Atoi ((if neg then "-" else EmptyString) ++ NilEmpty.string_of_uint d)
  = let v := if neg then - Z.of_N (Pos.of_uint d) else Z.of_N (Pos.of_uint d) in
    if (strconv.minInt <=? v) && (v <=? strconv.maxInt) then Some v else None.
Proof.
  intros Hd. pose proof (digits_of_uint d) as D. unfold strconv.Atoi.
  destruct neg; cbn [append];
    destruct d; try congruence;
    cbn [NilEmpty.string_of_uint] in *; cbv beta iota; rewrite D; reflexivity.
Qed.

(** [strconv.Atoi] reads back what [%d] prints. *)
Lemma Atoi_d (n : Z) : fits_int n -> strconv.Atoi (fmt.d n) = Some n.
Proof.
  unfold fits_int, fmt.d. intros [Lo Hi].
  destruct n as [|p|p]; cbn [Z.to_int NilZero.string_of_int].
  - reflexivity.
  - pose proof (Unsigned.to_uint_nonnil p) as Nn.
    replace (NilZero.string_of_uint (Pos.to_uint p))
      with (EmptyString ++ NilEmpty.string_of_uint (Pos.to_uint p))
      by (destruct (Pos.to_uint p); [congruence|reflexivity..]).
    rewrite (Atoi_of_uint _ false Nn), DecimalPos.Unsigned.of_to. cbn [Z.of_N].
    cbv zeta. apply Z.leb_le in Lo, Hi. now rewrite Lo, Hi.
  - pose proof (Unsigned.to_uint_nonnil p) as Nn.
    replace (String "-" (NilZero.string_of_uint (Pos.to_uint p)))
      with ("-" ++ NilEmpty.string_of_uint (Pos.to_uint p))
      by (destruct (Pos.to_uint p); [congruence|reflexivity..]).
    rewrite (Atoi_of_uint _ true Nn), DecimalPos.Unsigned.of_to. cbn [Z.of_N Z.opp].
    cbv zeta. apply Z.leb_le in Lo, Hi. now rewrite Lo, Hi.
Qed.

Lemma string_of_uint_free (c : ascii) (d : Decimal.uint) :
  strconv.digit c = None -> free_of c (NilEmpty.string_of_uint d) = true.
Proof.
  intros H.
  induction d as [|d IH|d IH|d IH|d IH|d IH|d IH|d IH|d IH|d IH|d IH];
    cbn [NilEmpty.string_of_uint free_of]; [reflexivity|..]; rewrite IH;
    match goal with
    | |- context [Ascii.eqb ?k c] =>
        destruct (Ascii.eqb_spec k c) as [<-|_];
        [vm_compute in H; discriminate H|reflexivity]
    end.
Qed.

(** A character that is neither a digit nor the minus sign does not occur
    in what [%d] prints. *)
Lemma d_free (c : ascii) (n : Z) :
  strconv.digit c = None -> c <> "-"%char -> free_of c (fmt.d n) = true.
Proof.
  intros H M. unfold fmt.d.
  assert (Z0 : free_of c "0" = true).
  { cbn [free_of]. destruct (Ascii.eqb_spec "0" c) as [<-|_];
      [vm_compute in H; discriminate H|reflexivity]. }
  assert (U : forall d, free_of c (NilZero.string_of_uint d) = true).
  { intros d. pose proof (string_of_uint_free c d H).
    destruct d; [exact Z0|assumption..]. }
  destruct n as [|p|p]; cbn [Z.to_int NilZero.string_of_int free_of].
  - exact Z0.
  - apply U.
  - rewrite U. destruct (Ascii.eqb_spec "-" c) as [E|_]; [|reflexivity].
    now destruct M.
Qed.

Lemma d_not_empty (n : Z) : fmt.d n <> EmptyString.
Proof.
  unfold fmt.d. destruct n as [|p|p]; cbn [Z.to_int NilZero.string_of_int];
    try discriminate.
  pose proof (Unsigned.to_uint_nonnil p).
  destruct (Pos.to_uint p); [congruence|discriminate..].
Qed.

(** X8: Every bound that fits an [int] can be written in an annotation: the
    creators of the constraints with an integer parameter accept the
    decimal form of [n], as [%d] prints it, and build the constraint with
    the bound [n]. *)
Theorem creators_accept_decimal (n : Z) :
  fits_int n ->
  newIntMinValidator (fmt.d n) = Some (intMinValidator n)
  /\ newIntMaxValidator (fmt.d n) = Some (intMaxValidator n)
  /\ newStrLenValidator (fmt.d n) = Some (strLenValidator n)
  /\ newStrMinValidator (fmt.d n) = Some (strMinValidator n)
  /\ newStrMaxValidator (fmt.d n) = Some (strMaxValidator n).
Proof.
  intros F.
  unfold newIntMinValidator, newIntMaxValidator, newStrLenValidator,
         newStrMinValidator, newStrMaxValidator.
  rewrite (Atoi_d n F). repeat split.
Qed.

(* ================================================================== *)
(** ** Lists written with commas *)

Lemma Split_Join (sep : ascii) (l : list string) :
  l <> [] -> Forall (fun x => free_of sep x = true) l ->
  strings.Split (strings.Join l (String sep EmptyString)) sep = l.
Proof.
  intros Hl H. induction H as [|x rest Hx Hrest IH]; [congruence|].
  destruct rest as [|y rest].
  - cbn. now apply Split_free.
  - change (strings.Join (x :: y :: rest) (String sep EmptyString))
      with (x ++ String sep (strings.Join (y :: rest) (String sep EmptyString))).
    rewrite Split_app, (Split_free _ _ Hx), IH by discriminate. reflexivity.
Qed.

(** X6: The text constraint [in] reads back a list of allowed strings joined
    with commas: for a list that is not empty and whose strings contain no
    comma, the creator builds the constraint with exactly that list. *)
Theorem newStrInValidator_Join (l : list string) :
  l <> [] -> Forall (fun x => free_of "," x = true) l ->
  newStrInValidator (strings.Join l ",") = Some (strInValidator l).
Proof.
  intros Hl H. unfold newStrInValidator. now rewrite (Split_Join "," l Hl H).
Qed.

(** X3: [parseIntSlice] reads back a list of integers printed with [%d] and
    joined with commas: for a list that is not empty and whose integers
    fit an [int] it returns that list, and so [newIntInValidator] builds
    the constraint with that list. *)
Theorem parseIntSlice_Join (l : list Z) :
  l <> [] -> Forall fits_int l ->
  parseIntSlice (strings.Join (map fmt.d l) ",") = Some l
  /\ newIntInValidator (strings.Join (map fmt.d l) ",")
     = Some (intInValidator l).
Proof.
  intros Hl H.
  assert (P : parseIntSlice (strings.Join (map fmt.d l) ",") = Some l).
  { apply parseIntSlice_Some.
    rewrite (Split_Join "," (map fmt.d l)).
    - rewrite map_map. apply map_ext_in. intros n Hn.
      rewrite Forall_forall in H. now apply Atoi_d, H.
    - destruct l; [congruence|discriminate].
    - apply Forall_map, Forall_forall. intros n _.
      apply d_free; [reflexivity|discriminate]. }
  split; [exact P|]. unfold newIntInValidator. now rewrite P.
Qed.

(* ================================================================== *)
(** ** A range annotation, end to end *)

Lemma free_of_app (c : ascii) (x y : string) :
  free_of c (x ++ y) = free_of c x && free_of c y.
Proof.
  induction x as [|c' x IH]; cbn; [reflexivity|].
  now rewrite IH, andb_assoc.
Qed.

(** A clause [key:param] whose key and parameter are not empty and contain
    no colon stands for what the creator registered under the key makes of
    the parameter. *)
Lemma clause_validator_single (tbl : list (string * fieldValidatorCreator))
    (key param : string) :
  key <> EmptyString -> param <> EmptyString ->
  free_of ":" key = true -> free_of ":" param = true ->
  clause_validator tbl (key ++ ":" ++ param)
  = match map_index tbl key with
    | Some createValidator => createValidator param
    | None => None
    end.
Proof.
  intros Hk Hp Fk Fp. unfold clause_validator.
  change (key ++ ":" ++ param) with (key ++ String ":" param).
  rewrite Split_app, (Split_free _ _ Fk), (Split_free _ _ Fp). cbn [app].
  apply String.eqb_neq in Hk, Hp. now rewrite Hk, Hp.
Qed.

Lemma clauses_bound (tbl : list (string * fieldValidatorCreator))
    (key : string) (n : Z) (create : fieldValidatorCreator)
    (validator : fieldValidator) :
  key <> EmptyString -> free_of ":" key = true -> free_of ";" key = true ->
  map_index tbl key = Some create ->
  create (fmt.d n) = Some validator ->
  all_some (map (clause_validator tbl) (strings.Split (key ++ ":" ++ fmt.d n) ";"))
  = Some [validator].
Proof.
  intros Hk F1 F2 M C. rewrite Split_free.
  - cbn [map all_some].
    rewrite clause_validator_single, M, C; auto using d_not_empty.
    apply d_free; [reflexivity|discriminate].
  - rewrite free_of_app, F2. cbn [andb].
    change (":" ++ fmt.d n) with (String ":" (fmt.d n)). cbn [free_of].
    rewrite d_free; [reflexivity|reflexivity|discriminate].
Qed.

Lemma parse_min_max (t : reflect.type) (a b : Z)
    (createMin createMax : fieldValidatorCreator) (vmin vmax : fieldValidator) :
  reflect.Kind_of t = reflect.Int \/ reflect.Kind_of t = reflect.String ->
  map_index (creators t) "min" = Some createMin ->
  map_index (creators t) "max" = Some createMax ->
  createMin (fmt.d a) = Some vmin -> createMax (fmt.d b) = Some vmax ->
  parse_clauses (creators t)
    (strings.Split (("min:" ++ fmt.d a) ++ ";" ++ ("max:" ++ fmt.d b)) ";") []
  = inl [vmin; vmax].
Proof.
  intros K Mmin Mmax Cmin Cmax. rewrite parse_clauses_all_some.
  change (("min:" ++ fmt.d a) ++ ";" ++ ("max:" ++ fmt.d b))
    with (("min" ++ ":" ++ fmt.d a) ++ String ";" ("max" ++ ":" ++ fmt.d b)).
  rewrite Split_app, map_app, all_some_app.
  rewrite (clauses_bound _ "min" a createMin vmin); auto; try discriminate.
  rewrite (clauses_bound _ "max" b createMax vmax); auto; discriminate.
Qed.

(** X19: The annotation [min:a;max:b], with the bounds in decimal, accepts
    exactly the range from [a] to [b]: an exported integer field with this
    annotation is valid iff its value lies between the bounds, and an
    exported text field iff the length of its value in bytes does. *)
Theorem range_annotation name tag a b (i : Z) (s : string) :
  fits_int a -> fits_int b ->
  reflect.Lookup tag "validate"
  = Some (("min:" ++ fmt.d a) ++ ";" ++ ("max:" ++ fmt.d b)) ->
  (Validate (Some (reflect.VStruct
                     [reflect.mkField name EmptyString tag (reflect.VInt i)]))
   = Ret None <-> a <= i <= b)
  /\ (Validate (Some (reflect.VStruct
                        [reflect.mkField name EmptyString tag (reflect.VString s)]))
      = Ret None <-> a <= len s <= b).
Proof.
  intros Fa Fb L.
  assert (PI := parse_min_max reflect.TInt a b newIntMinValidator
                  newIntMaxValidator (intMinValidator a) (intMaxValidator b)
                  (or_introl eq_refl) eq_refl eq_refl).
  assert (PS := parse_min_max reflect.TString a b newStrMinValidator
                  newStrMaxValidator (strMinValidator a) (strMaxValidator b)
                  (or_intror eq_refl) eq_refl eq_refl).
  unfold newIntMinValidator, newIntMaxValidator in PI.
  unfold newStrMinValidator, newStrMaxValidator in PS.
  rewrite (Atoi_d a Fa), (Atoi_d b Fb) in PI, PS.
  specialize (PI eq_refl eq_refl). specialize (PS eq_refl eq_refl).
  remember (("min:" ++ fmt.d a) ++ ";" ++ ("max:" ++ fmt.d b)) as text eqn:E.
  clear E.
  rewrite !Validate_struct. cbn [flat_map]. rewrite !app_nil_r.
  rewrite (field_errors_leaf name tag (reflect.VInt i) _ (or_introl eq_refl) L).
  rewrite (field_errors_leaf name tag (reflect.VString s) _ (or_intror eq_refl) L).
  cbn [reflect.type_of]. rewrite PI, PS. unfold violations. cbn.
  split.
  - destruct (Z.ltb_spec i a), (Z.gtb_spec i b); cbn;
      split; intros Hv; try discriminate; try lia; reflexivity.
  - destruct (Z.ltb_spec (len s) a), (Z.gtb_spec (len s) b); cbn;
      split; intros Hv; try discriminate; try lia; reflexivity.
Qed.

End Validator.

(* ================================================================== *)
(** ** The claims on concrete inputs *)

(** The test [struct with wrong double nested] of the repository: one error,
    wrapped under both field names. *)
Example test_wrong_double_nested :
  Validate kind_printer (Some (reflect.VStruct
    [untagged "OuterNested" (reflect.VStruct
       [untagged "InnerNested" (reflect.VStruct
          [tagged "A" "min:1;max:2" (reflect.VInt 0)])])]))
  = Ret (Some (of_ValidationErrors
      [wrap "OuterNested"
         (wrap "InnerNested"
            (mkValidationError "A" (Errorf "0 is less than min allowed 1")))])).
Proof. reflexivity. Qed.

(** The test [wrong in] of the repository: five errors, among them the
    malformed annotations [in:5-] and [in:]. *)
Example test_wrong_in :
  option_map Error
    (match Validate kind_printer (Some (reflect.VStruct
       [tagged "InA" "in:ab,cd" (reflect.VString "ef");
        tagged "InB" "in:aa,bb,cd,ee" (reflect.VString "ab");
        tagged "InC" "in:-1,-3,5,7" (reflect.VInt 2);
        tagged "InD" "in:5-" (reflect.VInt 12);
        tagged "InEmpty" "in:" (reflect.VString EmptyString)])) with
     | Ret err => err
     | Panic _ => None
     end)
  = Some ("InA: ef is not in [ab cd]" ++ LF
          ++ "InB: ab is not in [aa bb cd ee]" ++ LF
          ++ "InC: 2 is not in [-1 -3 5 7]" ++ LF
          ++ "InD: invalid validator syntax" ++ LF
          ++ "InEmpty: invalid validator syntax").
Proof. reflexivity. Qed.

(** The test [valid struct with unexported fields] of the repository: the
    string of the aggregate of one error is the message of its cause. *)
Example test_unexported :
  option_map Error
    (match Validate kind_printer (Some (reflect.VStruct
       [reflect.mkField "foo" "validator" (validate_tag "len:10")
                        (reflect.VString EmptyString)])) with
     | Ret err => err
     | Panic _ => None
     end)
  = Some (Error ErrValidateForUnexportedFields).
Proof. reflexivity. Qed.

(** The character length of [e_acute] is 1, its length in bytes is 2. *)
Example e_acute_lengths :
  utf8.RuneCountInString e_acute = 1 /\ len e_acute = 2.
Proof. split; reflexivity. Qed.

(** On a string of ASCII characters the character length is the length in
    bytes. *)
Lemma RuneCount_ascii (s : string) :
  (forall c, In c (list_ascii_of_string s) -> utf8.byte c < 128) ->
  utf8.RuneCountInString s = len s.
Proof.
  unfold utf8.RuneCountInString, len. intros H. f_equal.
  induction s as [|c rest IH]; [reflexivity|].
  cbn [utf8.count String.length]. unfold utf8.width.
  destruct (Z.ltb_spec (utf8.byte c) 128) as [_|Hc].
  - cbn [Nat.pred]. f_equal. apply IH. intros c' Hin. apply H. now right.
  - specialize (H c (or_introl eq_refl)). lia.
Qed.

(** C2 as stated fails: the annotation [len:1] on a text field parses into
    one constraint, and on the string [e_acute], of character length 1, the
    constraint reports a violation (the string has two bytes). *)
Lemma text_character_length_counterexample :
  ~ (forall type_String text validators s,
        parseValidators type_String reflect.TString text = Ret (inl validators) ->
        Forall (fun validator =>
                  text_rule type_String utf8.RuneCountInString validator s)
               validators).
Proof.
  intros H.
  specialize (H kind_printer "len:1" [strLenValidator 1] e_acute eq_refl).
  inversion H as [|v vs R _]; subst.
  exact (proj1 R eq_refl eq_refl).
Qed.

Lemma text_constraints_use_byte_length_witness :
  parseValidators kind_printer reflect.TString "min:2;len:1"
  = Ret (inl [strMinValidator 2; strLenValidator 1])
  /\ Forall (fun validator => text_rule kind_printer len validator e_acute)
            [strMinValidator 2; strLenValidator 1].
Proof.
  split; [reflexivity|].
  apply (text_constraints_use_byte_length kind_printer "min:2;len:1").
  reflexivity.
Defined.

Lemma all_constraints_evaluated_witness :
  Validate kind_printer (Some (reflect.VStruct
    [tagged "MinInInt" "min:5;max:10;in:2,4,12" (reflect.VInt 1)]))
  = Ret (Some (of_ValidationErrors
      [mkValidationError "MinInInt" (Errorf "1 is less than min allowed 5");
       mkValidationError "MinInInt" (Errorf "1 is not in [2 4 12]")])).
Proof.
  exact (proj1 (all_constraints_evaluated kind_printer [] [] "MinInInt"
                  (validate_tag "min:5;max:10;in:2,4,12") (reflect.VInt 1)
                  "min:5;max:10;in:2,4,12"
                  [intMinValidator 5; intMaxValidator 10; intInValidator [2; 4; 12]]
                  (or_introl eq_refl) eq_refl eq_refl)).
Defined.

Lemma malformed_annotation_fails_witness :
  parseValidators kind_printer reflect.TString "len:abcdef"
  = Ret (inr ErrInvalidValidatorSyntax)
  /\ Validate kind_printer (Some (reflect.VStruct
        [tagged "Foo" "len:abcdef" (reflect.VString EmptyString)]))
     = Ret (Some (of_ValidationErrors
         [mkValidationError "Foo" ErrInvalidValidatorSyntax])).
Proof.
  destruct (malformed_annotation_fails kind_printer reflect.TString "len:abcdef"
              (or_intror eq_refl) eq_refl) as [P V].
  split; [exact P|].
  exact (V [] [] "Foo" (validate_tag "len:abcdef")
           (reflect.VString EmptyString) eq_refl eq_refl).
Defined.

Lemma unexported_field_reported_witness :
  Validate kind_printer (Some (reflect.VStruct
    [reflect.mkField "foo" "validator" (validate_tag "len:10")
                     (reflect.VString EmptyString)]))
  = Ret (Some (of_ValidationErrors
      [mkValidationError "foo" ErrValidateForUnexportedFields]))
  /\ Validate kind_printer (Some (reflect.VStruct
        [reflect.mkField "foo" "validator" (validate_tag "len:10")
                         (reflect.VString "0123456789")]))
     = Validate kind_printer (Some (reflect.VStruct
        [reflect.mkField "foo" "validator" (validate_tag "len:10")
                         (reflect.VString EmptyString)])).
Proof.
  refine (unexported_field_reported kind_printer [] [] "foo" "validator"
            (validate_tag "len:10") (reflect.VString EmptyString)
            (reflect.VString "0123456789") _ eq_refl eq_refl).
  discriminate.
Defined.

Lemma unsupported_type_unreachable_witness :
  (reflect.Kind_of reflect.TInt = reflect.Int
   \/ reflect.Kind_of reflect.TInt = reflect.String)
  /\ exists r, parseValidators kind_printer reflect.TInt "min:10" = Ret r.
Proof.
  refine (proj1 (unsupported_type_unreachable kind_printer
                   (reflect.mkField "MinInt" EmptyString (validate_tag "min:10")
                                    reflect.TInt)
                   "min:10" (reflect.VInt 5) None) eq_refl _).
  discriminate.
Defined.

(* ================================================================== *)
(** ** Further properties on concrete inputs *)

Ltac fits := unfold fits_int; vm_compute; split; discriminate.

Lemma integer_constraints_rule_witness :
  parseValidators kind_printer reflect.TInt "min:5;max:10;in:2,4,12"
  = Ret (inl [intMinValidator 5; intMaxValidator 10; intInValidator [2; 4; 12]])
  /\ Forall (fun validator => int_rule kind_printer validator 1)
            [intMinValidator 5; intMaxValidator 10; intInValidator [2; 4; 12]].
Proof.
  split; [reflexivity|].
  exact (integer_constraints_rule kind_printer "min:5;max:10;in:2,4,12" _ 1
           eq_refl).
Defined.

Lemma negative_text_bounds_witness :
  violated kind_printer (strMinValidator (-1)) (reflect.VString "abc") = false
  /\ violated kind_printer (strMaxValidator (-7)) (reflect.VString "ab") = true
  /\ violated kind_printer (strLenValidator (-6)) (reflect.VString "abcd") = true.
Proof.
  split; [|split].
  - apply (proj1 (negative_text_bounds kind_printer (-1) "abc")). discriminate.
  - apply (proj1 (proj2 (negative_text_bounds kind_printer (-7) "ab"))).
    reflexivity.
  - apply (proj2 (proj2 (negative_text_bounds kind_printer (-6) "abcd"))).
    reflexivity.
Defined.

Lemma parseValidators_clauses_witness :
  parseValidators kind_printer reflect.TString "len:2;in:a,b,c"
  = Ret (inl [strLenValidator 2; strInValidator ["a"; "b"; "c"]]).
Proof.
  exact (parseValidators_clauses kind_printer reflect.TString "len:2;in:a,b,c"
           (or_intror eq_refl)).
Defined.

Lemma parseValidators_semicolon_witness :
  parseValidators kind_printer reflect.TInt ("min:0" ++ ";" ++ "max:10")
  = Ret (inl ([intMinValidator 0] ++ [intMaxValidator 10])%list).
Proof.
  exact (parseValidators_semicolon kind_printer reflect.TInt "min:0" "max:10"
           (or_introl eq_refl)).
Defined.

Lemma parsed_parameters_ok_witness :
  [intMinValidator (-10); intInValidator [20; 25; 30]] <> []
  /\ Forall parameters_ok [intMinValidator (-10); intInValidator [20; 25; 30]].
Proof.
  exact (parsed_parameters_ok kind_printer reflect.TInt "min:-10;in:20,25,30"
           _ eq_refl).
Defined.

Lemma leaf_errors_bounded_witness :
  (List.length
     (aggregate
        (Validate kind_printer
           (Some (reflect.VStruct
                    [tagged "MinInInt" "min:5;max:10;in:2,4,12" (reflect.VInt 1)]))))
   <= List.length (strings.Split "min:5;max:10;in:2,4,12" ";"))%nat.
Proof.
  exact (leaf_errors_bounded kind_printer "MinInInt"
           (validate_tag "min:5;max:10;in:2,4,12") (reflect.VInt 1)
           "min:5;max:10;in:2,4,12" (or_introl eq_refl) eq_refl).
Defined.

Lemma creators_accept_decimal_witness :
  newIntMinValidator (fmt.d (-10)) = Some (intMinValidator (-10))
  /\ newIntMaxValidator (fmt.d (-10)) = Some (intMaxValidator (-10))
  /\ newStrLenValidator (fmt.d (-10)) = Some (strLenValidator (-10))
  /\ newStrMinValidator (fmt.d (-10)) = Some (strMinValidator (-10))
  /\ newStrMaxValidator (fmt.d (-10)) = Some (strMaxValidator (-10)).
Proof. apply (creators_accept_decimal (-10)). fits. Defined.

Lemma newStrInValidator_Join_witness :
  newStrInValidator (strings.Join ["foo"; "bar"] ",")
  = Some (strInValidator ["foo"; "bar"]).
Proof.
  apply (newStrInValidator_Join ["foo"; "bar"]); [discriminate|].
  repeat constructor.
Defined.

Lemma parseIntSlice_Join_witness :
  parseIntSlice (strings.Join (map fmt.d [-1; -3; 5; 7]) ",")
  = Some [-1; -3; 5; 7]
  /\ newIntInValidator (strings.Join (map fmt.d [-1; -3; 5; 7]) ",")
     = Some (intInValidator [-1; -3; 5; 7]).
Proof.
  apply (parseIntSlice_Join [-1; -3; 5; 7]); [discriminate|].
  repeat (apply Forall_cons; [fits|]). apply Forall_nil.
Defined.

Lemma range_annotation_witness :
  (Validate kind_printer
     (Some (reflect.VStruct
              [tagged "A" (("min:" ++ fmt.d 0) ++ ";" ++ ("max:" ++ fmt.d 5))
                      (reflect.VInt 2)]))
   = Ret None <-> 0 <= 2 <= 5)
  /\ (Validate kind_printer
        (Some (reflect.VStruct
                 [tagged "A" (("min:" ++ fmt.d 0) ++ ";" ++ ("max:" ++ fmt.d 5))
                         (reflect.VString "bb")]))
      = Ret None <-> 0 <= len "bb" <= 5).
Proof.
  apply (range_annotation kind_printer "A"
           (validate_tag (("min:" ++ fmt.d 0) ++ ";" ++ ("max:" ++ fmt.d 5)))
           0 5 2 "bb"); [fits|fits|reflexivity].
Defined.

(** The test [struct with wrong double nested] of the repository as an
    instance of the theorem on nested structs: the one violated constraint
    of the innermost field gives exactly one error, wrapped twice. *)
Lemma nested_errors_wrapped_witness :
  Validate kind_printer (Some (reflect.VStruct
    [untagged "OuterNested" (reflect.VStruct
       [untagged "InnerNested" (reflect.VStruct
          [tagged "A" "min:1;max:2" (reflect.VInt 0)])])]))
  = Ret (Some (of_ValidationErrors
      [wrap "OuterNested"
         (wrap "InnerNested"
            (mkValidationError "A" (Errorf "0 is less than min allowed 1")))])).
Proof.
  exact (proj2 (proj2
    (nested_errors_wrapped kind_printer [] [] "OuterNested" []
       [untagged "InnerNested" (reflect.VStruct
          [tagged "A" "min:1;max:2" (reflect.VInt 0)])]
       "OuterNested" "InnerNested" [] [] [] [] "A" (validate_tag "min:1;max:2")
       (reflect.VInt 0) "min:1;max:2" [intMinValidator 1; intMaxValidator 2]
       (or_introl eq_refl) eq_refl eq_refl))).
Defined.
